(** * gen_icon: the macOS icon-set generator of [scripts/gen_icon.py]

    A shallow embedding of the script and the properties of its
    specification.  The script builds, for each entry of a fixed size
    table, the text of a Swift drawing program, hands it to
    [/usr/bin/swift], and finally calls [iconutil] on the staging
    directory.

    The two external programs and the file system are the environment:
    the programs are an arbitrary function of the command line, of the
    file system and of the history of the run; the library calls the
    script makes ([os.makedirs], [os.path.join], [os.path.dirname],
    [print], [subprocess.run]) are modelled after the Python standard
    library on POSIX. *)

From Stdlib Require Import ZArith QArith Lqa Lia Ascii String DecimalString.
From Stdlib Require DecimalZ DecimalPos.
From stdpp Require Import gmap strings list fin_maps.

Open Scope Z_scope.

(** ** Strings *)

Module Str.

(** The characters the template needs and a Rocq string literal cannot
    hold directly. *)
Definition nl : string := String (ascii_of_nat 10) EmptyString.
Definition dquote : string := String (ascii_of_nat 34) EmptyString.

(** [str(n)] and the empty format specification of an f-string field
    for a Python [int]: decimal digits, with a leading minus sign for a
    negative number. *)
Definition str_int (n : Z) : string := NilZero.string_of_int (Z.to_int n).

(** Every line followed by a line feed. *)
Fixpoint unlines (ls : list string) : string :=
  match ls with
  | [] => EmptyString
  | l :: rest => l +:+ nl +:+ unlines rest
  end.

(** [s.startswith(p)] *)
Fixpoint startswith (p s : string) : bool :=
  match p, s with
  | EmptyString, _ => true
  | String a p', String b s' => if Ascii.eqb a b then startswith p' s' else false
  | String _ _, EmptyString => false
  end.

(** [sub in s] *)
Fixpoint contains (sub s : string) : bool :=
  startswith sub s ||
  match s with
  | EmptyString => false
  | String _ s' => contains sub s'
  end.

(** [s.endswith(p)] *)
Definition endswith (p s : string) : bool :=
  startswith (String.rev p) (String.rev s).

End Str.

(** ** Module constants *)

Definition ICONSET : string := "build/AppIcon.iconset".
Definition ICNS_OUT : string := "Resources/AppIcon.icns".

Definition SIZES : list (string * Z) :=
  [ ("icon_16x16.png",        16);
    ("icon_16x16@2x.png",     32);
    ("icon_32x32.png",        32);
    ("icon_32x32@2x.png",     64);
    ("icon_128x128.png",     128);
    ("icon_128x128@2x.png",  256);
    ("icon_256x256.png",     256);
    ("icon_256x256@2x.png",  512);
    ("icon_512x512.png",     512);
    ("icon_512x512@2x.png", 1024) ].

(** ** The drawing program of [generate_png]

    The f-string of [generate_png] has two replacement fields, [{size}]
    and [{path}]; the doubled braces of the [for] loop are the f-string
    escape of a single brace.  The literal opens with a line feed and
    every line of it ends with one. *)

Module Template.

(** The text before the [{size}] field. *)
Definition head : string :=
  Str.nl +:+ Str.unlines ["import Cocoa"] +:+ "let size = ".

(** The text between the [{size}] field and the [{path}] field. *)
Definition body_lines : list string :=
  [ "";
    "let img = NSImage(size: NSSize(width: size, height: size))";
    "img.lockFocus()";
    "let ctx = NSGraphicsContext.current!.cgContext";
    "let s = CGFloat(size)";
    "let inset: CGFloat = s * 0.05";
    "let rect = CGRect(x: inset, y: inset, width: s - inset*2, height: s - inset*2)";
    "let radius: CGFloat = s * 0.22";
    "let bgPath = CGPath(roundedRect: rect, cornerWidth: radius, cornerHeight: radius, transform: nil)";
    "ctx.addPath(bgPath)";
    "ctx.setFillColor(red: 0.16, green: 0.47, blue: 1.0, alpha: 1.0)";
    "ctx.fillPath()";
    "let cardW = s * 0.52; let cardH = s * 0.46";
    "let cardX = (s - cardW) / 2; let cardY = s * 0.34";
    "let cardRect = CGRect(x: cardX, y: cardY, width: cardW, height: cardH)";
    "let cardRadius = s * 0.03";
    "let cardPath = CGPath(roundedRect: cardRect, cornerWidth: cardRadius, cornerHeight: cardRadius, transform: nil)";
    "ctx.addPath(cardPath)";
    "ctx.setFillColor(red: 1, green: 1, blue: 1, alpha: 0.95)";
    "ctx.fillPath()";
    "let pinW = s * 0.06; let pinH = s * 0.14";
    "let pins: [CGFloat] = [cardX + cardW * 0.18, cardX + cardW * 0.43, cardX + cardW * 0.65]";
    "for px in pins {";
    "    ctx.addRect(CGRect(x: px, y: cardY + cardH - pinH - s*0.03, width: pinW, height: pinH))";
    "}";
    "ctx.setFillColor(red: 0.16, green: 0.47, blue: 1.0, alpha: 1.0)";
    "ctx.fillPath()";
    "let cx = s * 0.5; let ay = s * 0.12; let az = s * 0.15";
    "ctx.move(to: CGPoint(x: cx, y: ay))";
    "ctx.addLine(to: CGPoint(x: cx - az*0.7, y: ay + az*0.7))";
    "ctx.addLine(to: CGPoint(x: cx - az*0.25, y: ay + az*0.7))";
    "ctx.addLine(to: CGPoint(x: cx - az*0.25, y: ay + az*1.3))";
    "ctx.addLine(to: CGPoint(x: cx + az*0.25, y: ay + az*1.3))";
    "ctx.addLine(to: CGPoint(x: cx + az*0.25, y: ay + az*0.7))";
    "ctx.addLine(to: CGPoint(x: cx + az*0.7, y: ay + az*0.7))";
    "ctx.closePath()";
    "ctx.setFillColor(red: 1, green: 1, blue: 1, alpha: 0.9)";
    "ctx.fillPath()";
    "img.unlockFocus()";
    "let tiff = img.tiffRepresentation!";
    "let rep = NSBitmapImageRep(data: tiff)!";
    "let png = rep.representation(using: .png, properties: [:])!" ].

Definition body : string :=
  Str.unlines body_lines +:+ "try! png.write(to: URL(fileURLWithPath: " +:+ Str.dquote.

(** The text after the [{path}] field. *)
Definition tail : string := Str.dquote +:+ "))" +:+ Str.nl.

End Template.

(** [swift_code] as [generate_png] binds it. *)
Definition swift_code (path : string) (size : Z) : string :=
  Template.head +:+ Str.str_int size +:+ Template.body +:+ path +:+ Template.tail.

(** ** POSIX paths, after [posixpath] *)

Module Path.

Definition sep : ascii := ascii_of_nat 47.

Definition is_sep (c : ascii) : bool := Ascii.eqb c sep.

(** [p.rstrip('/')] *)
Fixpoint rstrip_sep (p : string) : string :=
  match p with
  | EmptyString => EmptyString
  | String c r =>
      match rstrip_sep r with
      | EmptyString => if is_sep c then EmptyString else String c EmptyString
      | r' => String c r'
      end
  end.

(** [p == '/' * len(p)] *)
Fixpoint all_sep (p : string) : bool :=
  match p with
  | EmptyString => true
  | String c r => is_sep c && all_sep r
  end.

(** [(p[:i], p[i:])] for [i = p.rfind('/') + 1], when [p] has a slash. *)
Fixpoint cut_last_sep (p : string) : option (string * string) :=
  match p with
  | EmptyString => None
  | String c r =>
      match cut_last_sep r with
      | Some (h, t) => Some (String c h, t)
      | None => if is_sep c then Some (String c EmptyString, r) else None
      end
  end.

(** [os.path.split(p)] *)
Definition split (p : string) : string * string :=
  match cut_last_sep p with
  | None => (EmptyString, p)
  | Some (h, t) =>
      if negb (String.eqb h EmptyString) && negb (all_sep h)
      then (rstrip_sep h, t) else (h, t)
  end.

(** [os.path.dirname(p)] *)
Definition dirname (p : string) : string := fst (split p).

(** [os.path.join(a, b)] *)
Definition join (a b : string) : string :=
  if Str.startswith "/" b then b
  else if String.eqb a EmptyString || Str.endswith "/" a then a +:+ b
  else a +:+ "/" +:+ b.

(** The names a path walks through, split at slashes, empty names
    dropped; an absolute path starts with the name ["/"].  The names
    ["."] and [".."] are not interpreted. *)
Fixpoint names_from (cur : string) (p : string) : list string :=
  match p with
  | EmptyString => if String.eqb cur EmptyString then [] else [String.rev cur]
  | String c r =>
      if is_sep c
      then (if String.eqb cur EmptyString then [] else [String.rev cur]) ++ names_from EmptyString r
      else names_from (String c cur) r
  end.

Definition names (p : string) : list string :=
  (if Str.startswith "/" p then ["/"] else []) ++ names_from EmptyString p.

End Path.

(** ** The environment: file system, exceptions, external programs *)

Inductive node := Dir | File.

(** A file system maps the names of a path to what is there.  The
    working directory (no names) and the root are directories. *)
Abbreviation filesystem := (gmap (list string) node).

Inductive os_error := EEXIST | ENOENT | ENOTDIR | EACCES.

Inductive exn :=
| OSError (errno : os_error) (filename : string)
| RecursionError
| CalledProcessError (returncode : Z) (cmd : list string)
| UnicodeDecodeError.

Module Fs.

(** What is at a path given by its names. *)
Definition at_names (f : filesystem) (ns : list string) : option node :=
  match ns with
  | [] | ["/"] => Some Dir
  | _ => f !! ns
  end.

(** What is at a path; the empty path names nothing. *)
Definition lookup (f : filesystem) (p : string) : option node :=
  if String.eqb p EmptyString then None else at_names f (Path.names p).

(** [os.path.exists(p)] and [os.path.isdir(p)] *)
Definition exists_ (f : filesystem) (p : string) : bool :=
  match lookup f p with Some _ => true | None => false end.

Definition isdir (f : filesystem) (p : string) : bool :=
  match lookup f p with Some Dir => true | _ => false end.

(** [os.mkdir(p)]: the directory must not exist, its parent must be a
    directory.  Permissions are not modelled. *)
Definition mkdir (p : string) (f : filesystem) : exn + filesystem :=
  match lookup f p with
  | Some _ => inl (OSError EEXIST p)
  | None =>
      if String.eqb p EmptyString then inl (OSError ENOENT p)
      else
        match at_names f (removelast (Path.names p)) with
        | None => inl (OSError ENOENT p)
        | Some File => inl (OSError ENOTDIR p)
        | Some Dir => inr (<[Path.names p := Dir]> f)
        end
  end.

(** The last statement of [os.makedirs]: [mkdir], and with [exist_ok]
    an [OSError] is swallowed when the path is a directory. *)
Definition mkdir_exist_ok (name : string) (exist_ok : bool) (f : filesystem)
    : exn + filesystem :=
  match mkdir name f with
  | inr f' => inr f'
  | inl e => if negb exist_ok || negb (isdir f name) then inl e else inr f
  end.

(** [os.makedirs(name, exist_ok=exist_ok)]; [depth] bounds the depth of
    the recursion on the head of the path. *)
Fixpoint makedirs_rec (depth : nat) (name : string) (exist_ok : bool)
    (f : filesystem) : exn + filesystem :=
  match depth with
  | O => inl RecursionError
  | S depth' =>
      let '(head, tail) := Path.split name in
      let '(head, tail) :=
        if String.eqb tail EmptyString then Path.split head else (head, tail) in
      if negb (String.eqb head EmptyString) && negb (String.eqb tail EmptyString)
         && negb (exists_ f head)
      then
        match makedirs_rec depth' head exist_ok f with
        | inl (OSError EEXIST _) =>
            if String.eqb tail "." then inr f else mkdir_exist_ok name exist_ok f
        | inl e => inl e
        | inr f' =>
            if String.eqb tail "." then inr f' else mkdir_exist_ok name exist_ok f'
        end
      else mkdir_exist_ok name exist_ok f
  end.

Definition makedirs (name : string) (exist_ok : bool) (f : filesystem)
    : exn + filesystem :=
  makedirs_rec (S (String.length name)) name exist_ok f.

End Fs.

(** What a child process did: it ran, wrote text (or nothing) on its
    output and exited with a status (negative when a signal killed it);
    or it could not be started; or it ran and exited with a status
    having written bytes on its output that are not text in the locale's
    encoding. *)
Inductive outcome :=
| Exited (returncode : Z)
| ExecFailed (errno : os_error)
| Undecodable (returncode : Z).

(** What the script does to the outside, in the order it does it. *)
Inductive event :=
| Makedirs (name : string) (exist_ok : bool)
| Stdout (text : string)
| Run (args : list string) (capture_output : bool) (result : outcome).

(** The names the module binds at its top level. *)
Record module_globals := {
  g_ICONSET : string;
  g_ICNS_OUT : string;
  g_SIZES : list (string * Z)
}.

Definition module_init : module_globals :=
  {| g_ICONSET := ICONSET; g_ICNS_OUT := ICNS_OUT; g_SIZES := SIZES |}.

Record world := {
  globals : module_globals;
  fs : filesystem;
  trace : list event
}.

(** ** Computations that change the world and may raise *)

Definition M (A : Type) : Type := world -> (exn + A) * world.

Definition ret {A} (a : A) : M A := fun w => (inr a, w).

Definition raise {A} (e : exn) : M A := fun w => (inl e, w).

Definition bind {A B} (m : M A) (k : A -> M B) : M B :=
  fun w =>
    match m w with
    | (inl e, w') => (inl e, w')
    | (inr a, w') => k a w'
    end.

Declare Scope py_scope.
Delimit Scope py_scope with py.
Notation "x <- m ;; k" := (bind m (fun x => k))
  (at level 100, m at next level, right associativity) : py_scope.
Notation "m ;;; k" := (bind m (fun _ => k))
  (at level 100, right associativity) : py_scope.

Definition load {A} (name : module_globals -> A) : M A :=
  fun w => (inr (name (globals w)), w).

Definition emit (e : event) : M unit :=
  fun w => (inr tt, {| globals := globals w; fs := fs w; trace := trace w ++ [e] |}).

(** [print(text, end=end_, flush=...)]; writing to the standard output is
    taken not to fail. *)
Definition print (text end_ : string) : M unit := emit (Stdout (text +:+ end_)).

(** [os.makedirs(name, exist_ok=exist_ok)] *)
Definition os_makedirs (name : string) (exist_ok : bool) : M unit :=
  fun w =>
    let t := trace w ++ [Makedirs name exist_ok] in
    match Fs.makedirs name exist_ok (fs w) with
    | inl e => (inl e, {| globals := globals w; fs := fs w; trace := t |})
    | inr f => (inr tt, {| globals := globals w; fs := f; trace := t |})
    end.

(** What [subprocess.run] sees of a child process: output that is not
    captured, or is captured as bytes, is not decoded, and all that is
    left of the child is its status. *)
Definition seen (capture_output text : bool) (o : outcome) : outcome :=
  match o with
  | Undecodable returncode => if capture_output && text then o else Exited returncode
  | _ => o
  end.

Section Script.

(** The programs outside: from the command line, the file system and
    the events so far, what the child process does and the file system
    it leaves. *)
Variable exec : list string -> filesystem -> list event -> outcome * filesystem.

(** [subprocess.run(args, check=check, capture_output=..., text=...)]:
    the child runs to its end; captured output is decoded when [text]
    is set, strictly, which raises [UnicodeDecodeError] whatever the
    status; then [check] looks at the status.  The event records the
    child as the call saw it; the result is the return code of the
    [CompletedProcess]. *)
Definition subprocess_run (args : list string) (check capture_output text : bool) : M Z :=
  fun w =>
    let '(o, f) := exec args (fs w) (trace w) in
    let o := seen capture_output text o in
    let w' := {| globals := globals w; fs := f;
                 trace := trace w ++ [Run args capture_output o] |} in
    match o with
    | ExecFailed errno => (inl (OSError errno (List.hd EmptyString args)), w')
    | Undecodable _ => (inl UnicodeDecodeError, w')
    | Exited returncode =>
        if check && negb (returncode =? 0)
        then (inl (CalledProcessError returncode args), w')
        else (inr returncode, w')
    end.

Definition generate_png (path : string) (size : Z) : M unit :=
  (subprocess_run ["/usr/bin/swift"; "-e"; swift_code path size] true true true ;;;
   ret tt)%py.

(** The body of the [for] loop of [main], over the entries left. *)
Fixpoint main_loop (entries : list (string * Z)) : M unit :=
  match entries with
  | [] => ret tt
  | (name, size) :: rest =>
      (iconset <- load g_ICONSET ;;
       let out := Path.join iconset name in
       print ("  " +:+ name +:+ " (" +:+ Str.str_int size +:+ "x"
              +:+ Str.str_int size +:+ ")...") " " ;;;
       generate_png out size ;;;
       print "OK" Str.nl ;;;
       main_loop rest)%py
  end.

Definition main : M unit :=
  (iconset <- load g_ICONSET ;;
   os_makedirs iconset true ;;;
   icns_out <- load g_ICNS_OUT ;;
   os_makedirs (Path.dirname icns_out) true ;;;
   sizes <- load g_SIZES ;;
   main_loop sizes ;;;
   print "Creating .icns..." Str.nl ;;;
   iconset <- load g_ICONSET ;;
   icns_out <- load g_ICNS_OUT ;;
   subprocess_run ["iconutil"; "-c"; "icns"; iconset; "-o"; icns_out] true false false ;;;
   icns_out <- load g_ICNS_OUT ;;
   print ("Done: " +:+ icns_out) Str.nl)%py.

(** The first two statements of [main], and the rest of it. *)
Definition main_init : M unit :=
  (iconset <- load g_ICONSET ;;
   os_makedirs iconset true ;;;
   icns_out <- load g_ICNS_OUT ;;
   os_makedirs (Path.dirname icns_out) true)%py.

Definition main_rest : M unit :=
  (sizes <- load g_SIZES ;;
   main_loop sizes ;;;
   print "Creating .icns..." Str.nl ;;;
   iconset <- load g_ICONSET ;;
   icns_out <- load g_ICNS_OUT ;;
   subprocess_run ["iconutil"; "-c"; "icns"; iconset; "-o"; icns_out] true false false ;;;
   icns_out <- load g_ICNS_OUT ;;
   print ("Done: " +:+ icns_out) Str.nl)%py.

(** The process: the module's top level binds the constants and calls
    [main]; an exception nobody caught ends the interpreter with status
    1, a normal end with status 0. *)
Definition start (f : filesystem) : world :=
  {| globals := module_init; fs := f; trace := [] |}.

Definition exit_status {A} (r : exn + A) : Z :=
  match r with inl _ => 1 | inr _ => 0 end.

Definition script (f : filesystem) : Z * world :=
  let '(r, w) := main (start f) in (exit_status r, w).

End Script.

(** A machine where both programs work and leave the file system alone. *)
Definition exec_ok (args : list string) (f : filesystem) (t : list event)
    : outcome * filesystem := (Exited 0, f).

(** A machine whose [n]-th child process (from 0) exits with [status],
    the others with 0. *)
Definition exec_nth (n : nat) (status : Z) (args : list string)
    (f : filesystem) (t : list event) : outcome * filesystem :=
  let started := length (List.filter (fun e => match e with Run _ _ _ => true | _ => false end) t) in
  (Exited (if Nat.eqb started n then status else 0), f).

(** ** The shape of a run

    What [main] leaves in the trace, spelled out once; the properties
    below are read off this description. *)

Module Shape.

(** The line [print] writes before a render. *)
Definition progress (entry : string * Z) : string :=
  ("  " +:+ fst entry +:+ " (" +:+ Str.str_int (snd entry) +:+ "x"
   +:+ Str.str_int (snd entry) +:+ ")...") +:+ " ".

Definition ok_line : string := "OK" +:+ Str.nl.
Definition creating_line : string := "Creating .icns..." +:+ Str.nl.
Definition done_line (g : module_globals) : string :=
  ("Done: " +:+ g_ICNS_OUT g) +:+ Str.nl.

(** The destination [main] passes to [generate_png] for an entry. *)
Definition out_path (g : module_globals) (entry : string * Z) : string :=
  Path.join (g_ICONSET g) (fst entry).

(** The command lines of the two child processes. *)
Definition render_args (g : module_globals) (entry : string * Z) : list string :=
  ["/usr/bin/swift"; "-e"; swift_code (out_path g entry) (snd entry)].

Definition package_args (g : module_globals) : list string :=
  ["iconutil"; "-c"; "icns"; g_ICONSET g; "-o"; g_ICNS_OUT g].

(** The exception [subprocess.run(..., check=True)] raises for what it
    saw of a child, if any. *)
Definition failure (args : list string) (o : outcome) : option exn :=
  match o with
  | ExecFailed errno => Some (OSError errno (List.hd EmptyString args))
  | Undecodable _ => Some UnicodeDecodeError
  | Exited returncode =>
      if returncode =? 0 then None else Some (CalledProcessError returncode args)
  end.

Definition init_events (g : module_globals) : list event :=
  [Makedirs (g_ICONSET g) true; Makedirs (Path.dirname (g_ICNS_OUT g)) true].

(** One iteration that went through. *)
Definition entry_events (g : module_globals) (entry : string * Z) : list event :=
  [Stdout (progress entry); Run (render_args g entry) true (Exited 0); Stdout ok_line].

(** An iteration whose render failed. *)
Definition failed_entry_events (g : module_globals) (entry : string * Z)
    (o : outcome) : list event :=
  [Stdout (progress entry); Run (render_args g entry) true o].

Inductive run (g : module_globals) : list event -> exn + unit -> Prop :=
| staging_dir_fails e :
    run g [Makedirs (g_ICONSET g) true] (inl e)
| output_dir_fails e :
    run g (init_events g) (inl e)
| render_fails k entry o e :
    g_SIZES g !! k = Some entry ->
    failure (render_args g entry) o = Some e ->
    run g (init_events g
           ++ flat_map (entry_events g) (take k (g_SIZES g))
           ++ failed_entry_events g entry o) (inl e)
| package_fails o e :
    failure (package_args g) o = Some e ->
    run g (init_events g
           ++ flat_map (entry_events g) (g_SIZES g)
           ++ [Stdout creating_line; Run (package_args g) false o]) (inl e)
| completes :
    run g (init_events g
           ++ flat_map (entry_events g) (g_SIZES g)
           ++ [Stdout creating_line; Run (package_args g) false (Exited 0);
               Stdout (done_line g)]) (inr tt).

End Shape.

(** ** Reading a trace *)

Module Obs.

Definition run_of (e : event) : list (list string * outcome) :=
  match e with
  | Run args _ o => [(args, o)]
  | _ => []
  end.

(** The child processes of a trace, in order, with how each ended. *)
Definition runs (t : list event) : list (list string * outcome) :=
  flat_map run_of t.

Definition program_is (prog : string) (args : list string) : bool :=
  match args with
  | [] => false
  | a :: _ => String.eqb a prog
  end.

(** The command is a render of [generate_png]. *)
Definition is_render (args : list string) : bool := program_is "/usr/bin/swift" args.

(** The command is the packaging of [main]. *)
Definition is_package (args : list string) : bool := program_is "iconutil" args.

Definition renders (t : list event) : list (list string * outcome) :=
  List.filter (fun r => is_render (fst r)) (runs t).

Definition packagings (t : list event) : list (list string * outcome) :=
  List.filter (fun r => is_package (fst r)) (runs t).

End Obs.

(** A render that went through, as it shows among the child processes:
    the child exited with status 0 and its captured output was read. *)
Definition rendered (g : module_globals) (entry : string * Z) : list string * outcome :=
  (Shape.render_args g entry, Exited 0).

(** ** File names of an icon set

    The naming convention of an icon set, as [iconutil] reads a staged
    file name: [icon_<n>x<n>.png] for the image of nominal size [n], and
    [icon_<n>x<n>@2x.png] for the one at twice the pixel density. *)

Module IconName.

Definition digit_of (c : ascii) : option Z :=
  let n := Z.of_nat (nat_of_ascii c) in
  if (48 <=? n) && (n <=? 57) then Some (n - 48) else None.

(** The decimal number [s] starts with, after the digits [acc] already
    read, and what follows it. *)
Fixpoint read_digits (acc : option Z) (s : string) : option Z * string :=
  match s with
  | EmptyString => (acc, s)
  | String c r =>
      match digit_of c with
      | Some d => read_digits (Some (10 * default 0 acc + d)) r
      | None => (acc, s)
      end
  end.

Fixpoint strip_prefix (p s : string) : option string :=
  match p, s with
  | EmptyString, _ => Some s
  | String a p', String b s' => if Ascii.eqb a b then strip_prefix p' s' else None
  | String _ _, EmptyString => None
  end.

(** Width, height and whether the name carries the [@2x] suffix. *)
Definition parse (name : string) : option (Z * Z * bool) :=
  rest ← strip_prefix "icon_" name;
  let '(width, rest) := read_digits None rest in
  width ← width;
  rest ← strip_prefix "x" rest;
  let '(height, rest) := read_digits None rest in
  height ← height;
  if String.eqb rest ".png" then Some (width, height, false)
  else if String.eqb rest "@2x.png" then Some (width, height, true)
  else None.

(** The nominal size a name encodes. *)
Definition nominal_size (name : string) : option Z :=
  '(width, height, _) ← parse name;
  if width =? height then Some width else None.

(** The stem of the name, before the extension, ends with [@2x]. *)
Definition has_2x_suffix (name : string) : bool := Str.endswith "@2x.png" name.

End IconName.

(** ** The drawing the program text describes

    The Swift statements of the template, read over the rationals: a
    [CGFloat] is taken as the exact number, so that [s * 0.22] is 22% of
    [s].  Each definition carries the name the template gives it. *)

Module Drawing.

Open Scope Q_scope.

Record CGRect := { x : Q; y : Q; width : Q; height : Q }.

Record CGPoint := { px : Q; py : Q }.

(** The calls on the graphics context [ctx]. *)
Inductive command :=
| addRoundedRect (rect : CGRect) (cornerWidth cornerHeight : Q)
| setFillColor (red green blue alpha : Q)
| fillPath
| addRect (rect : CGRect)
| move (to : CGPoint)
| addLine (to : CGPoint)
| closePath.

Section Frame.

(** [let s = CGFloat(size)] *)
Variable s : Q.

(** [let inset: CGFloat = s * 0.05] *)
Definition inset : Q := s * 0.05.

(** [let rect = CGRect(x: inset, y: inset, width: s - inset*2, height: s - inset*2)] *)
Definition rect : CGRect :=
  {| x := inset; y := inset; width := s - inset*2; height := s - inset*2 |}.

(** [let radius: CGFloat = s * 0.22] *)
Definition radius : Q := s * 0.22.

(** [let cardW = s * 0.52; let cardH = s * 0.46] *)
Definition cardW : Q := s * 0.52.
Definition cardH : Q := s * 0.46.

(** [let cardX = (s - cardW) / 2; let cardY = s * 0.34] *)
Definition cardX : Q := (s - cardW) / 2.
Definition cardY : Q := s * 0.34.

(** [let cardRect = CGRect(x: cardX, y: cardY, width: cardW, height: cardH)] *)
Definition cardRect : CGRect :=
  {| x := cardX; y := cardY; width := cardW; height := cardH |}.

(** [let cardRadius = s * 0.03] *)
Definition cardRadius : Q := s * 0.03.

(** [let pinW = s * 0.06; let pinH = s * 0.14] *)
Definition pinW : Q := s * 0.06.
Definition pinH : Q := s * 0.14.

(** [let pins: [CGFloat] = [cardX + cardW * 0.18, cardX + cardW * 0.43, cardX + cardW * 0.65]] *)
Definition pins : list Q :=
  [cardX + cardW * 0.18; cardX + cardW * 0.43; cardX + cardW * 0.65].

(** [CGRect(x: px, y: cardY + cardH - pinH - s*0.03, width: pinW, height: pinH)] *)
Definition pinRect (px : Q) : CGRect :=
  {| x := px; y := cardY + cardH - pinH - s*0.03; width := pinW; height := pinH |}.

(** [let cx = s * 0.5; let ay = s * 0.12; let az = s * 0.15] *)
Definition cx : Q := s * 0.5.
Definition ay : Q := s * 0.12.
Definition az : Q := s * 0.15.

(** The point of [ctx.move(to:)] and those of the six [ctx.addLine(to:)]. *)
Definition arrow : list CGPoint :=
  [ {| px := cx;             py := ay |};
    {| px := cx - az*0.7;    py := ay + az*0.7 |};
    {| px := cx - az*0.25;   py := ay + az*0.7 |};
    {| px := cx - az*0.25;   py := ay + az*1.3 |};
    {| px := cx + az*0.25;   py := ay + az*1.3 |};
    {| px := cx + az*0.25;   py := ay + az*0.7 |};
    {| px := cx + az*0.7;    py := ay + az*0.7 |} ].

(** The calls on [ctx], from [ctx.addPath(bgPath)] to the last
    [ctx.fillPath()]. *)
Definition commands : list command :=
  [ addRoundedRect rect radius radius;
    setFillColor 0.16 0.47 1.0 1.0;
    fillPath;
    addRoundedRect cardRect cardRadius cardRadius;
    setFillColor 1 1 1 0.95;
    fillPath ]
  ++ map (fun px => addRect (pinRect px)) pins
  ++ [ setFillColor 0.16 0.47 1.0 1.0;
       fillPath ]
  ++ match arrow with
     | [] => []
     | p :: ps => move p :: map addLine ps
     end
  ++ [ closePath;
       setFillColor 1 1 1 0.9;
       fillPath ].

End Frame.

(** The lengths and coordinates a call takes, colours apart. *)
Definition lengths (c : command) : list Q :=
  match c with
  | addRoundedRect r w h => [x r; y r; width r; height r; w; h]
  | addRect r => [x r; y r; width r; height r]
  | move p | addLine p => [px p; py p]
  | setFillColor _ _ _ _ | fillPath | closePath => []
  end.

(** The drawing of [generate_png path size]. *)
Definition program (size : Z) : list command := commands (inject_Z size).

(** Which way the [y] axis of the frame points on the canvas. *)
Inductive y_axis := Y_up | Y_down.

(** A vertical extent, from the smaller [y] to the larger. *)
Definition extent : Type := Q * Q.

Definition extent_of (r : CGRect) : extent := (y r, y r + height r).

Definition extent_at (p : CGPoint) : extent := (py p, py p).

(** [inner] is nearer to the side of larger [y] of [outer] than to its
    side of smaller [y], and the other way round. *)
Definition nearer_high (outer inner : extent) : Prop :=
  snd outer - snd inner < fst inner - fst outer.

Definition nearer_low (outer inner : extent) : Prop :=
  fst inner - fst outer < snd outer - snd inner.

(** [inner] is nearer to the top side of [outer] than to its bottom
    side. *)
Definition nearer_top (axis : y_axis) (outer inner : extent) : Prop :=
  match axis with
  | Y_up => nearer_high outer inner
  | Y_down => nearer_low outer inner
  end.

(** The bars along the top edge of the card and the arrow near the top
    of the canvas. *)
Definition bars_and_arrow_on_top (axis : y_axis) (s : Q) : Prop :=
  Forall (fun px => nearer_top axis (extent_of (cardRect s)) (extent_of (pinRect s px)))
    (pins s)
  /\ Forall (fun p => nearer_top axis (0, s) (extent_at p)) (arrow s).

End Drawing.

(** The decimal numeral of an integer reads back as the integer. *)
Definition int_of_str (s : string) : option Z :=
  option_map Z.of_int (NilZero.int_of_string s).

(** ** Characters of a text, and the standard output of a run *)

Module Chars.

(** [c in s] for a character [c] *)
Fixpoint mem (c : ascii) (s : string) : bool :=
  match s with
  | EmptyString => false
  | String a r => Ascii.eqb a c || mem c r
  end.

Definition newline : ascii := ascii_of_nat 10.

End Chars.

Module Out.

Definition text_of (e : event) : list string :=
  match e with
  | Stdout text => [text]
  | _ => []
  end.

(** What a run wrote on its standard output, one element per [print]. *)
Definition stdout (t : list event) : list string := flat_map text_of t.

(** How many times a run printed a text. *)
Definition count (text : string) (t : list event) : nat :=
  length (List.filter (String.eqb text) (stdout t)).

(** The renders of a run whose call returned: the child exited with
    status 0 and its captured output was read. *)
Definition succeeded (t : list event) : list (list string * outcome) :=
  List.filter (fun r => match snd r with
                        | Exited returncode => returncode =? 0
                        | ExecFailed _ | Undecodable _ => false
                        end)
    (Obs.renders t).

End Out.

(** ** Further machines, statuses, and growth of a file system *)

(** A machine whose [n]-th child process (from 0) exits with [status]
    having written bytes that are not text, the others with 0 and
    nothing written. *)
Definition exec_garbled (n : nat) (status : Z) (args : list string)
    (f : filesystem) (t : list event) : outcome * filesystem :=
  let started := length (List.filter (fun e => match e with Run _ _ _ => true | _ => false end) t) in
  (if Nat.eqb started n then Undecodable status else Exited 0, f).

(** The status a child process exited with, when it ran. *)
Definition returncode_of (o : outcome) : option Z :=
  match o with
  | Exited returncode | Undecodable returncode => Some returncode
  | ExecFailed _ => None
  end.

(** A machine on which no program can be started. *)
Definition exec_missing (args : list string) (f : filesystem) (t : list event)
    : outcome * filesystem := (ExecFailed ENOENT, f).

(** [f'] has everything [f] has, and what it has more is directories. *)
Definition grows_by_directories (f f' : filesystem) : Prop :=
  f ⊆ f' /\ forall p n, f' !! p = Some n -> f !! p = None -> n = Dir.

(** ** Boxes of the drawing *)

Module Layout.

Open Scope Q_scope.

(** The rectangle [inner] lies within the rectangle [outer]. *)
Definition within (outer inner : Drawing.CGRect) : Prop :=
  Drawing.x outer <= Drawing.x inner
  /\ Drawing.x inner + Drawing.width inner <= Drawing.x outer + Drawing.width outer
  /\ Drawing.y outer <= Drawing.y inner
  /\ Drawing.y inner + Drawing.height inner <= Drawing.y outer + Drawing.height outer.

(** The point lies within the rectangle. *)
Definition point_within (outer : Drawing.CGRect) (p : Drawing.CGPoint) : Prop :=
  Drawing.x outer <= Drawing.px p
  /\ Drawing.px p <= Drawing.x outer + Drawing.width outer
  /\ Drawing.y outer <= Drawing.py p
  /\ Drawing.py p <= Drawing.y outer + Drawing.height outer.

(** [a] ends, along [x], before [b] starts. *)
Definition left_of (a b : Drawing.CGRect) : Prop :=
  Drawing.x a + Drawing.width a < Drawing.x b.

(** The canvas of an image of edge length [s]. *)
Definition canvas (s : Q) : Drawing.CGRect :=
  {| Drawing.x := 0; Drawing.y := 0; Drawing.width := s; Drawing.height := s |}.

(** The mirror image of a point in the vertical line [x = c]. *)
Definition mirror (c : Q) (p : Drawing.CGPoint) : Drawing.CGPoint :=
  {| Drawing.px := c + c - Drawing.px p; Drawing.py := Drawing.py p |}.

Definition same_point (p q : Drawing.CGPoint) : Prop :=
  Drawing.px p == Drawing.px q /\ Drawing.py p == Drawing.py q.

End Layout.

(** * Properties *)

(** ** The model on concrete inputs *)

Example str_int_1024 : Str.str_int 1024 = "1024".
Proof. reflexivity. Qed.

Example str_int_negative : Str.str_int (-5) = "-5".
Proof. reflexivity. Qed.

Example swift_code_16_first_lines :
  Str.startswith
    (Str.nl +:+ "import Cocoa" +:+ Str.nl +:+ "let size = 16" +:+ Str.nl +:+ "let img = NSImage(")
    (swift_code "build/AppIcon.iconset/icon_16x16.png" 16) = true.
Proof. vm_compute. reflexivity. Qed.

Example swift_code_16_last_line :
  Str.endswith
    ("try! png.write(to: URL(fileURLWithPath: " +:+ Str.dquote +:+ "a.png" +:+ Str.dquote +:+ "))" +:+ Str.nl)
    (swift_code "a.png" 16) = true.
Proof. vm_compute. reflexivity. Qed.

Example split_ICONSET : Path.split ICONSET = ("build", "AppIcon.iconset").
Proof. reflexivity. Qed.

Example dirname_ICNS_OUT : Path.dirname ICNS_OUT = "Resources".
Proof. reflexivity. Qed.

Example join_ICONSET :
  Path.join ICONSET "icon_16x16.png" = "build/AppIcon.iconset/icon_16x16.png".
Proof. reflexivity. Qed.

Example names_ICONSET : Path.names ICONSET = ["build"; "AppIcon.iconset"].
Proof. reflexivity. Qed.

Example makedirs_fresh :
  Fs.makedirs ICONSET true ∅
  = inr (<[ ["build"; "AppIcon.iconset"] := Dir ]> (<[ ["build"] := Dir ]> ∅)).
Proof. reflexivity. Qed.

Example makedirs_exists_not_ok :
  Fs.makedirs "build" false (<[ ["build"] := Dir ]> ∅) = inl (OSError EEXIST "build").
Proof. reflexivity. Qed.

Example makedirs_over_file :
  Fs.makedirs ICONSET true (<[ ["build"] := File ]> ∅) = inl (OSError ENOTDIR ICONSET).
Proof. reflexivity. Qed.

Example script_ok_status : fst (script exec_ok ∅) = 0.
Proof. vm_compute. reflexivity. Qed.

Example script_ok_events : length (trace (snd (script exec_ok ∅))) = 35%nat.
Proof. vm_compute. reflexivity. Qed.

Example script_third_fails :
  fst (script (exec_nth 2 1) ∅) = 1
  /\ length (trace (snd (script (exec_nth 2 1) ∅))) = 10%nat.
Proof. vm_compute. split; reflexivity. Qed.

(** The tenth render exits with status 0 having written bytes that are
    not text: reading the captured output raises, the process ends with
    status 1, nine lines ["OK"] are printed and nothing is packaged. *)
Example script_tenth_garbled :
  fst (main (exec_garbled 9 0) (start ∅)) = inl UnicodeDecodeError
  /\ fst (script (exec_garbled 9 0) ∅) = 1
  /\ length (Obs.renders (trace (snd (script (exec_garbled 9 0) ∅)))) = 10%nat
  /\ Out.count ("OK" +:+ Str.nl) (trace (snd (script (exec_garbled 9 0) ∅))) = 9%nat
  /\ Obs.packagings (trace (snd (script (exec_garbled 9 0) ∅))) = [].
Proof. vm_compute. repeat split; reflexivity. Qed.

(** The packaging exits with status 0 having written bytes that are not
    text: its output is not captured, and the run goes through. *)
Example script_packaging_garbled :
  fst (script (exec_garbled 10 0) ∅) = 0
  /\ last (trace (snd (script (exec_garbled 10 0) ∅)))
     = Some (Stdout ("Done: Resources/AppIcon.icns" +:+ Str.nl)).
Proof. vm_compute. split; reflexivity. Qed.

(** ** Every run has one of five shapes *)

Lemma failure_none args o : Shape.failure args o = None <-> o = Exited 0.
Proof.
  destruct o as [rc | errno | rc]; simpl.
  - destruct (Z.eqb_spec rc 0) as [-> | Hne]; split; intros H; try done.
    congruence.
  - split; intros H; discriminate.
  - split; intros H; discriminate.
Qed.

Lemma failure_some args o e : Shape.failure args o = Some e -> o <> Exited 0.
Proof. intros H Ho. apply (failure_none args) in Ho. congruence. Qed.

Section Runs.

Variable exec : list string -> filesystem -> list event -> outcome * filesystem.

(** [subprocess.run] with [check=True] appends its event and raises
    exactly on a failure. *)
Lemma subprocess_run_check args cap text w :
  exists o f,
    let w' := {| globals := globals w; fs := f;
                 trace := trace w ++ [Run args cap o] |} in
    (Shape.failure args o = None /\ o = Exited 0
     /\ subprocess_run exec args true cap text w = (inr 0, w'))
    \/ (exists e, Shape.failure args o = Some e
        /\ subprocess_run exec args true cap text w = (inl e, w')).
Proof.
  unfold subprocess_run. destruct (exec args (fs w) (trace w)) as [o f].
  exists (seen cap text o), f. destruct (seen cap text o) as [rc | errno | rc]; simpl.
  - destruct (Z.eqb_spec rc 0) as [-> | Hne]; simpl; eauto 6.
  - right. eauto.
  - right. eauto.
Qed.

Lemma main_loop_shape g entries :
  forall w, globals w = g ->
    exists r w', main_loop exec entries w = (r, w') /\ globals w' = g /\
      ((r = inr tt
        /\ trace w' = trace w ++ flat_map (Shape.entry_events g) entries)
       \/ (exists k entry o e,
             entries !! k = Some entry
             /\ Shape.failure (Shape.render_args g entry) o = Some e
             /\ r = inl e
             /\ trace w' = trace w
                  ++ flat_map (Shape.entry_events g) (take k entries)
                  ++ Shape.failed_entry_events g entry o)).
Proof.
  induction entries as [| [name size] rest IH]; intros w Hg.
  - exists (inr tt), w. simpl. rewrite app_nil_r. eauto.
  - cbn [main_loop]. unfold bind at 1. unfold load at 1.
    unfold bind at 1. unfold print at 1, emit at 1.
    set (w1 := {| globals := globals w; fs := fs w;
                  trace := trace w ++ [Stdout _] |}).
    unfold bind at 1. unfold generate_png. unfold bind at 1.
    destruct (subprocess_run_check
                ["/usr/bin/swift"; "-e"; swift_code (Path.join (g_ICONSET (globals w)) name) size]
                true true w1) as (o & f & [(Hnone & -> & Hrun) | (e & Hsome & Hrun)]);
      cbv zeta in Hrun; rewrite Hrun.
    + unfold ret at 1. unfold bind at 1. unfold print at 1, emit at 1.
      cbn [globals fs trace].
      match goal with |- context [main_loop exec rest ?w2] =>
        destruct (IH w2 Hg) as (r & w' & Hloop & Hg' & Hcases) end.
      exists r, w'. split; [exact Hloop |]. split; [exact Hg' |].
      subst w1. cbn [globals fs trace] in Hcases.
      destruct Hcases as [[-> Htr] | (k & entry & o & e & Hk & Hf & -> & Htr)].
      * left. split; [done |]. rewrite Htr. subst g.
        cbn [flat_map Shape.entry_events]. rewrite <- !app_assoc. reflexivity.
      * right. exists (S k), entry, o, e. split; [exact Hk |].
        split; [exact Hf |]. split; [done |]. rewrite Htr. subst g.
        cbn [take flat_map Shape.entry_events]. rewrite <- !app_assoc. reflexivity.
    + eexists _, _. split; [reflexivity |]. cbn [globals]. subst w1.
      cbn [globals]. split; [exact Hg |].
      right. exists 0%nat, (name, size), o, e. subst g.
      split; [reflexivity |]. split; [exact Hsome |]. split; [done |].
      cbn [trace take flat_map app]. rewrite <- app_assoc. reflexivity.
Qed.

(** Every run of [main] has one of the five shapes, and leaves the
    module's globals as they were. *)
Lemma main_shape w :
  exists r w' t, main exec w = (r, w') /\ globals w' = globals w
    /\ trace w' = trace w ++ t /\ Shape.run (globals w) t r.
Proof.
  unfold main. unfold bind at 1. unfold load at 1.
  unfold bind at 1. unfold os_makedirs at 1.
  destruct (Fs.makedirs (g_ICONSET (globals w)) true (fs w)) as [e1 | f1].
  { eexists _, _, _. split; [reflexivity |]. cbn [globals trace].
    split; [done |]. split; [reflexivity |]. constructor. }
  unfold bind at 1. unfold load at 1. cbn [globals].
  unfold bind at 1. unfold os_makedirs at 1. cbn [globals fs trace].
  destruct (Fs.makedirs (Path.dirname (g_ICNS_OUT (globals w))) true f1) as [e2 | f2].
  { eexists _, _, _. split; [reflexivity |]. cbn [globals trace].
    split; [done |]. split; [rewrite <- app_assoc; reflexivity |].
    apply Shape.output_dir_fails. }
  unfold bind at 1. unfold load at 1. cbn [globals].
  unfold bind at 1.
  match goal with |- context [main_loop exec _ ?w2] =>
    destruct (main_loop_shape (globals w) (g_SIZES (globals w)) w2 eq_refl)
      as (r & w3 & Hloop & Hg3 & Hcases) end.
  rewrite Hloop.
  destruct Hcases as [[-> Htr] | (k & entry & o & e & Hk & Hf & -> & Htr)].
  - unfold bind at 1. unfold print at 1, emit at 1.
    unfold bind at 1. unfold load at 1. cbn [globals].
    unfold bind at 1. unfold load at 1. cbn [globals].
    unfold bind at 1.
    match goal with |- context [subprocess_run exec ?a true false false ?w4] =>
      destruct (subprocess_run_check a false false w4)
        as (o & f & [(Hnone & -> & Hrun) | (e & Hsome & Hrun)]) end;
      cbv zeta in Hrun; rewrite Hrun; cbn [globals fs trace].
    + unfold bind at 1. unfold load at 1. cbn [globals].
      unfold print, emit. cbn [globals fs trace].
      eexists _, _, _. split; [reflexivity |]. cbn [globals trace].
      split; [exact Hg3 |]. rewrite Hg3, Htr. cbn [trace].
      split; [| apply Shape.completes].
      unfold Shape.init_events, Shape.done_line, Shape.creating_line,
        Shape.package_args. rewrite <- !app_assoc. reflexivity.
    + eexists _, _, _. split; [reflexivity |]. cbn [globals trace].
      split; [exact Hg3 |]. rewrite Hg3 in *. rewrite Htr. cbn [trace].
      split; [| apply (Shape.package_fails _ o e Hsome)].
      unfold Shape.init_events, Shape.creating_line, Shape.package_args.
      rewrite <- !app_assoc. reflexivity.
  - eexists _, _, _. split; [reflexivity |]. split; [exact Hg3 |].
    rewrite Htr. cbn [trace].
    split; [| apply (Shape.render_fails _ k entry o e Hk Hf)].
    unfold Shape.init_events. rewrite <- !app_assoc. reflexivity.
Qed.

(** The same for the whole process. *)
Lemma script_shape f :
  exists r w, main exec (start f) = (r, w)
    /\ script exec f = (exit_status r, w)
    /\ globals w = module_init /\ Shape.run module_init (trace w) r.
Proof.
  destruct (main_shape (start f)) as (r & w & t & Hmain & Hg & Htr & Hrun).
  exists r, w. split; [exact Hmain |]. unfold script. rewrite Hmain.
  split; [reflexivity |]. split; [exact Hg |].
  simpl in Htr. rewrite Htr. exact Hrun.
Qed.

End Runs.

(** ** The child processes of a run *)

Section TraceFacts.

Variable g : module_globals.

Lemma runs_app t1 t2 : Obs.runs (t1 ++ t2) = Obs.runs t1 ++ Obs.runs t2.
Proof. unfold Obs.runs. apply flat_map_app. Qed.

Lemma renders_app t1 t2 : Obs.renders (t1 ++ t2) = Obs.renders t1 ++ Obs.renders t2.
Proof. unfold Obs.renders. rewrite runs_app. apply List.filter_app. Qed.

Lemma packagings_app t1 t2 :
  Obs.packagings (t1 ++ t2) = Obs.packagings t1 ++ Obs.packagings t2.
Proof. unfold Obs.packagings. rewrite runs_app. apply List.filter_app. Qed.

Lemma renders_entries es :
  Obs.renders (flat_map (Shape.entry_events g) es) = map (rendered g) es.
Proof.
  induction es as [| e es IH]; [reflexivity |].
  cbn [flat_map]. rewrite renders_app, IH. reflexivity.
Qed.

Lemma packagings_entries es :
  Obs.packagings (flat_map (Shape.entry_events g) es) = [].
Proof.
  induction es as [| e es IH]; [reflexivity |].
  cbn [flat_map]. rewrite packagings_app, IH. reflexivity.
Qed.

Lemma renders_failed entry o :
  Obs.renders (Shape.failed_entry_events g entry o) = [(Shape.render_args g entry, o)].
Proof. reflexivity. Qed.

Lemma length_entries es :
  length (flat_map (Shape.entry_events g) es) = (3 * length es)%nat.
Proof.
  induction es as [| e es IH]; [reflexivity |].
  cbn [flat_map]. rewrite length_app, IH. cbn [Shape.entry_events length]. lia.
Qed.

(** Within the iterations that went through, every child process is a
    render that exited with status 0. *)
Lemma entries_runs_ok es i args cap o :
  flat_map (Shape.entry_events g) es !! i = Some (Run args cap o) ->
  o = Exited 0 /\ exists entry, In entry es /\ args = Shape.render_args g entry.
Proof.
  intros Hi. apply list_elem_of_lookup_2, list_elem_of_In, in_flat_map in Hi.
  destruct Hi as (e & He & Hin). cbn [Shape.entry_events In] in Hin.
  destruct Hin as [H | [H | [H | []]]]; try discriminate.
  injection H as <- <- <-. split; [reflexivity | eauto].
Qed.

(** The [j]-th of the iterations that went through sits at events
    [3 j], [3 j + 1] and [3 j + 2]. *)
Lemma entries_lookup es j entry (r : nat) :
  es !! j = Some entry -> (r < 3)%nat ->
  flat_map (Shape.entry_events g) es !! (3 * j + r)%nat
  = Shape.entry_events g entry !! r.
Proof.
  revert j. induction es as [| e es IH]; intros j Hj Hr; [discriminate |].
  cbn [flat_map]. destruct j as [| j].
  - injection Hj as ->. rewrite lookup_app_l; [reflexivity |].
    cbn [Shape.entry_events length]. lia.
  - rewrite lookup_app_r by (cbn [Shape.entry_events length]; lia).
    cbn [Shape.entry_events length].
    replace (3 * S j + r - 3)%nat with (3 * j + r)%nat by lia.
    apply IH; assumption.
Qed.

(** What the five shapes give for the child processes. *)
Lemma shape_renders t r :
  Shape.run g t r ->
  exists k tl,
    Obs.renders t = map (rendered g) (take k (g_SIZES g)) ++ tl
    /\ ((tl = [] /\ (k = 0%nat \/ k = length (g_SIZES g)))
        \/ (exists entry o e,
              g_SIZES g !! k = Some entry
              /\ Shape.failure (Shape.render_args g entry) o = Some e
              /\ r = inl e /\ tl = [(Shape.render_args g entry, o)])).
Proof.
  intros [e | e | k entry o e Hk Hf | o e Hf |].
  - exists 0%nat, []. split; [reflexivity |]. left. auto.
  - exists 0%nat, []. split; [reflexivity |]. left. auto.
  - exists k, [(Shape.render_args g entry, o)].
    rewrite !renders_app, renders_entries, renders_failed.
    split; [reflexivity |]. right. eauto 8.
  - exists (length (g_SIZES g)), [].
    rewrite !renders_app, renders_entries, firstn_all.
    split; [reflexivity |]. left. auto.
  - exists (length (g_SIZES g)), [].
    rewrite !renders_app, renders_entries, firstn_all.
    split; [reflexivity |]. left. auto.
Qed.

(** A child process that did not exit with status 0 is the last event
    of the run, and its exception is the result of [main]. *)
Lemma shape_failing_run_last t r i args cap o :
  Shape.run g t r ->
  t !! i = Some (Run args cap o) -> o <> Exited 0 ->
  length t = S i /\ exists e, r = inl e /\ Shape.failure args o = Some e.
Proof.
  intros Hrun Hi Ho. destruct Hrun as [e | e | k entry o' e Hk Hf | o' e Hf |].
  - destruct i as [| [| i]]; discriminate.
  - destruct i as [| [| i]]; discriminate.
  - apply lookup_app_Some in Hi as [Hi | [_ Hi]];
      [destruct i as [| [| i]]; discriminate |].
    apply lookup_app_Some in Hi as [Hi | [Hge Hi]];
      [apply entries_runs_ok in Hi as [-> _]; done |].
    rewrite !length_app. cbn [Shape.init_events Shape.failed_entry_events length] in *.
    remember (i - 2 - length (flat_map (Shape.entry_events g) (take k (g_SIZES g))))%nat
      as d eqn:Hd.
    destruct d as [| [| d]]; try discriminate.
    injection Hi as <- <- <-. split; [lia | eauto].
  - apply lookup_app_Some in Hi as [Hi | [_ Hi]];
      [destruct i as [| [| i]]; discriminate |].
    apply lookup_app_Some in Hi as [Hi | [Hge Hi]];
      [apply entries_runs_ok in Hi as [-> _]; done |].
    rewrite !length_app. cbn [Shape.init_events length] in *.
    remember (i - 2 - length (flat_map (Shape.entry_events g) (g_SIZES g)))%nat
      as d eqn:Hd.
    destruct d as [| [| d]]; try discriminate.
    injection Hi as <- <- <-. split; [lia | eauto].
  - apply lookup_app_Some in Hi as [Hi | [_ Hi]];
      [destruct i as [| [| i]]; discriminate |].
    apply lookup_app_Some in Hi as [Hi | [Hge Hi]];
      [apply entries_runs_ok in Hi as [-> _]; done |].
    remember (i - length (Shape.init_events g)
              - length (flat_map (Shape.entry_events g) (g_SIZES g)))%nat
      as d eqn:Hd.
    destruct d as [| [| [| d]]]; try discriminate.
    injection Hi as <- <- <-. done.
Qed.

End TraceFacts.

(** ** Failures of the child processes *)

(** C4.  Whenever a child process of a run, the renderer or the packager,
    exits with a status other than 0, [main] ends with an exception that
    nothing caught: the [CalledProcessError] of that very invocation,
    or, when the output captured from the child cannot be decoded, the
    [UnicodeDecodeError] of reading it.  The process ends with status
    1, and the failed invocation is the last event of the run: nothing
    is retried and nothing runs after it. *)
Theorem failed_child_aborts_run
    (exec : list string -> filesystem -> list event -> outcome * filesystem)
    (f : filesystem) (i : nat) (args : list string) (cap : bool)
    (o : outcome) (rc : Z) :
  trace (snd (script exec f)) !! i = Some (Run args cap o) ->
  returncode_of o = Some rc ->
  rc <> 0 ->
  fst (main exec (start f))
  = inl (match o with
         | Undecodable _ => UnicodeDecodeError
         | _ => CalledProcessError rc args
         end)
  /\ fst (script exec f) = 1
  /\ length (trace (snd (script exec f))) = S i
  /\ (Obs.is_render args = true \/ Obs.is_package args = true).
Proof.
  intros Hi Hcode Hrc.
  destruct (script_shape exec f) as (r & w & Hmain & Hscript & _ & Hrun).
  rewrite Hscript in *. rewrite Hmain. cbn [fst snd] in *.
  assert (Ho : o <> Exited 0).
  { intros ->. cbn in Hcode. congruence. }
  destruct (shape_failing_run_last _ _ _ _ _ _ _ Hrun Hi Ho) as (Hlen & e & -> & Hf).
  assert (He : e = match o with
                   | Undecodable _ => UnicodeDecodeError
                   | _ => CalledProcessError rc args
                   end).
  { destruct o as [rc' | errno | rc']; cbn in Hcode, Hf; try discriminate.
    - injection Hcode as ->. destruct (Z.eqb_spec rc 0) as [| _]; [done |].
      congruence.
    - congruence. }
  rewrite <- He. repeat split; try done.
  clear Ho Hrc Hlen Hmain Hscript Hcode He Hf. revert Hi Hrun.
  generalize (trace w). intros t Hi Hrun.
  inversion Hrun as [e' H1 | e' H1 | k entry o' e' Hk Hfail H1 | o' e' Hfail H1 |];
    subst;
    try (destruct i as [| [| i]]; discriminate);
    (apply lookup_app_Some in Hi as [Hi | [_ Hi]];
       [destruct i as [| [| i]]; discriminate |]).
  - apply lookup_app_Some in Hi as [Hi | [_ Hi]];
      [apply entries_runs_ok in Hi as [_ (? & _ & ->)]; left; reflexivity |].
    remember (i - length (Shape.init_events module_init)
              - length (flat_map (Shape.entry_events module_init)
                          (take k (g_SIZES module_init))))%nat as d.
    destruct d as [| [| d]]; try discriminate.
    injection Hi as <- _ _. left. reflexivity.
  - apply lookup_app_Some in Hi as [Hi | [_ Hi]];
      [apply entries_runs_ok in Hi as [_ (? & _ & ->)]; left; reflexivity |].
    remember (i - length (Shape.init_events module_init)
              - length (flat_map (Shape.entry_events module_init)
                          (g_SIZES module_init)))%nat as d.
    destruct d as [| [| d]]; try discriminate.
    injection Hi as <- _ _. right. reflexivity.
Qed.

(** The third render exits with status 1; and the third render exits
    with status 1 having written bytes that are not text. *)
Lemma failed_child_aborts_run_witness :
  let args := Shape.render_args module_init ("icon_32x32.png", 32) in
  (trace (snd (script (exec_nth 2 1) ∅)) !! 9%nat = Some (Run args true (Exited 1))
   /\ fst (main (exec_nth 2 1) (start ∅)) = inl (CalledProcessError 1 args)
   /\ length (trace (snd (script (exec_nth 2 1) ∅))) = 10%nat)
  /\ (trace (snd (script (exec_garbled 2 1) ∅)) !! 9%nat
      = Some (Run args true (Undecodable 1))
      /\ fst (main (exec_garbled 2 1) (start ∅)) = inl UnicodeDecodeError
      /\ length (trace (snd (script (exec_garbled 2 1) ∅))) = 10%nat).
Proof.
  intros args. split.
  - assert (H : trace (snd (script (exec_nth 2 1) ∅)) !! 9%nat
                = Some (Run args true (Exited 1))) by (vm_compute; reflexivity).
    split; [exact H |].
    destruct (failed_child_aborts_run (exec_nth 2 1) ∅ 9 args true (Exited 1) 1
                H eq_refl ltac:(lia)) as (H1 & _ & H3 & _).
    split; [exact H1 | exact H3].
  - assert (H : trace (snd (script (exec_garbled 2 1) ∅)) !! 9%nat
                = Some (Run args true (Undecodable 1))) by (vm_compute; reflexivity).
    split; [exact H |].
    destruct (failed_child_aborts_run (exec_garbled 2 1) ∅ 9 args true (Undecodable 1) 1
                H eq_refl ltac:(lia)) as (H1 & _ & H3 & _).
    split; [exact H1 | exact H3].
Defined.

(** ** Order of the renders, and the packaging *)

Lemma map_fst_rendered g es :
  map fst (map (rendered g) es) = map (Shape.render_args g) es.
Proof. rewrite map_map. reflexivity. Qed.

Lemma length_SIZES : length SIZES = 10%nat.
Proof. reflexivity. Qed.

(** The renders of a run are those of the first [k] entries, for some
    [k]. *)
Lemma renders_are_listed
    (exec : list string -> filesystem -> list event -> outcome * filesystem)
    (f : filesystem) :
  exists k, (k <= length SIZES)%nat
    /\ map fst (Obs.renders (trace (snd (script exec f))))
       = map (Shape.render_args module_init) (take k SIZES).
Proof.
  destruct (script_shape exec f) as (r & w & _ & -> & _ & Hrun). cbn [snd].
  destruct (shape_renders _ _ _ Hrun) as (k & tl & -> & Hcases).
  change (g_SIZES module_init) with SIZES in *.
  destruct Hcases as [[-> Hk] | (entry & o & e & Hk & _ & _ & ->)].
  - exists k. rewrite app_nil_r, map_fst_rendered. split; [| reflexivity].
    destruct Hk as [-> | ->]; lia.
  - exists (S k). split; [apply lookup_lt_Some in Hk; lia |].
    rewrite (take_S_r _ _ _ Hk), !map_app, map_fst_rendered. reflexivity.
Qed.

(** Renders that all went through are followed by no failed one. *)
Lemma rendered_snoc_inv g es1 es2 args o :
  map (rendered g) es1 ++ [(args, o)] = map (rendered g) es2 -> o = Exited 0.
Proof.
  intros H. apply (f_equal last) in H. rewrite last_snoc in H.
  destruct es2 as [| e es2] using rev_ind; [discriminate |].
  rewrite map_app in H. cbn [map] in H. rewrite last_snoc in H.
  injection H as _ ->. reflexivity.
Qed.

(** C5.  The renders of a run are, in this order, those of the entries
    of [SIZES] from the first on; a render that fails is the last one of
    the run, which ends with status 1; and a run that ends with status 0
    has rendered all the entries, each with status 0. *)
Theorem renders_in_listed_order
    (exec : list string -> filesystem -> list event -> outcome * filesystem)
    (f : filesystem) :
  let t := trace (snd (script exec f)) in
  map fst (Obs.renders t) `prefix_of` map (Shape.render_args module_init) SIZES
  /\ (forall j args o,
        Obs.renders t !! j = Some (args, o) -> o <> Exited 0 ->
        length (Obs.renders t) = S j /\ fst (script exec f) = 1)
  /\ (fst (script exec f) = 0 ->
      Obs.renders t = map (rendered module_init) SIZES).
Proof.
  intros t. split; [| split].
  - destruct (renders_are_listed exec f) as (k & _ & Hk). subst t. rewrite Hk.
    rewrite <- firstn_map. apply prefix_take.
  - intros j args o Hj Ho. subst t.
    destruct (script_shape exec f) as (r & w & _ & Hs & _ & Hrun).
    rewrite Hs in *. cbn [fst snd] in *.
    destruct (shape_renders _ _ _ Hrun) as (k & tl & Hren & Hcases).
    rewrite Hren in *.
    destruct Hcases as [[-> _] | (entry & o' & e & Hk & Hf & -> & ->)].
    + rewrite app_nil_r in Hj. rewrite list_lookup_fmap in Hj.
      destruct (take k (g_SIZES module_init) !! j); [| discriminate].
      injection Hj as _ <-. done.
    + split; [| reflexivity].
      apply lookup_app_Some in Hj as [Hj | [Hge Hj]].
      * rewrite list_lookup_fmap in Hj.
        destruct (take k (g_SIZES module_init) !! j); [| discriminate].
        injection Hj as _ <-. done.
      * rewrite length_app. cbn [length].
        destruct (j - _)%nat eqn:Hd in Hj; [| discriminate]. lia.
  - intros Hst. subst t.
    destruct (script_shape exec f) as (r & w & _ & Hs & _ & Hrun).
    rewrite Hs in *. cbn [fst snd] in *.
    destruct Hrun; try discriminate.
    rewrite !renders_app, renders_entries. cbn; rewrite ?app_nil_r; reflexivity.
Qed.

Lemma renders_in_listed_order_witness :
  let t := trace (snd (script (exec_nth 2 1) ∅)) in
  length (Obs.renders t) = 3%nat /\ fst (script (exec_nth 2 1) ∅) = 1.
Proof.
  intros t.
  destruct (renders_in_listed_order (exec_nth 2 1) ∅) as (_ & H & _).
  apply (H 2%nat (Shape.render_args module_init ("icon_32x32.png", 32)) (Exited 1)).
  - vm_compute. reflexivity.
  - discriminate.
Defined.

(** C6.  A run invokes the packaging tool at most once; when it does,
    the ten calls of [generate_png] have all returned before (each child
    exited with status 0 and its captured output was read); and once
    the ten calls have returned the tool is invoked, whatever the child
    processes left in the file system. *)
Theorem packaging_once_after_all_renders
    (exec : list string -> filesystem -> list event -> outcome * filesystem)
    (f : filesystem) :
  let t := trace (snd (script exec f)) in
  (length (Obs.packagings t) <= 1)%nat
  /\ (forall i args cap o,
        t !! i = Some (Run args cap o) -> Obs.is_package args = true ->
        args = Shape.package_args module_init
        /\ Obs.renders (take i t) = map (rendered module_init) SIZES)
  /\ (Obs.renders t = map (rendered module_init) SIZES ->
      length (Obs.packagings t) = 1%nat).
Proof.
  intros t. subst t.
  destruct (script_shape exec f) as (r & w & _ & -> & _ & Hrun). cbn [snd].
  revert Hrun. generalize (trace w). clear w. intros t Hrun.
  split; [| split].
  - destruct Hrun; rewrite ?packagings_app, ?packagings_entries, ?length_app;
      cbn; lia.
  - intros i args cap o Hi Hpk.
    assert (Hmid : forall es j, flat_map (Shape.entry_events module_init) es !! j
                                <> Some (Run args cap o)).
    { intros es j Hj. apply entries_runs_ok in Hj as [_ (? & _ & ->)]. discriminate. }
    destruct Hrun as [e | e | k entry o' e Hk Hf | o' e Hf |];
      try (destruct i as [| [| i]]; discriminate);
      (apply lookup_app_Some in Hi as [Hi | [Hge1 Hi]];
         [destruct i as [| [| i]]; discriminate |]);
      (apply lookup_app_Some in Hi as [Hi | [Hge2 Hi]];
         [exfalso; exact (Hmid _ _ Hi) |]).
    + destruct (i - _ - _)%nat as [| [| d]]; try discriminate.
      injection Hi as <- _ _. discriminate.
    + remember (i - length (Shape.init_events module_init)
                - length (flat_map (Shape.entry_events module_init)
                            (g_SIZES module_init)))%nat as d eqn:Hd.
      destruct d as [| [| d]]; try discriminate.
      injection Hi as <- _ _. split; [reflexivity |].
      replace (Shape.init_events module_init
               ++ flat_map (Shape.entry_events module_init) (g_SIZES module_init)
               ++ [Stdout Shape.creating_line;
                   Run (Shape.package_args module_init) false o'])
        with ((Shape.init_events module_init
               ++ flat_map (Shape.entry_events module_init) (g_SIZES module_init)
               ++ [Stdout Shape.creating_line])
              ++ [Run (Shape.package_args module_init) false o'])
        by (rewrite <- !app_assoc; reflexivity).
      rewrite take_app_length'.
      2:{ rewrite !length_app in *. cbn [length] in *. lia. }
      rewrite !renders_app, renders_entries. cbn; rewrite ?app_nil_r; reflexivity.
    + remember (i - length (Shape.init_events module_init)
                - length (flat_map (Shape.entry_events module_init)
                            (g_SIZES module_init)))%nat as d eqn:Hd.
      destruct d as [| [| [| d]]]; try discriminate.
      injection Hi as <- _ _. split; [reflexivity |].
      replace (Shape.init_events module_init
               ++ flat_map (Shape.entry_events module_init) (g_SIZES module_init)
               ++ [Stdout Shape.creating_line;
                   Run (Shape.package_args module_init) false (Exited 0);
                   Stdout (Shape.done_line module_init)])
        with ((Shape.init_events module_init
               ++ flat_map (Shape.entry_events module_init) (g_SIZES module_init)
               ++ [Stdout Shape.creating_line])
              ++ [Run (Shape.package_args module_init) false (Exited 0);
                  Stdout (Shape.done_line module_init)])
        by (rewrite <- !app_assoc; reflexivity).
      rewrite take_app_length'.
      2:{ rewrite !length_app in *. cbn [length] in *. lia. }
      rewrite !renders_app, renders_entries. cbn; rewrite ?app_nil_r; reflexivity.
  - intros Hall.
    destruct Hrun as [e | e | k entry o' e Hk Hf | o' e Hf |];
      try discriminate;
      rewrite ?packagings_app, ?packagings_entries; try reflexivity.
    exfalso. rewrite !renders_app, renders_entries, renders_failed in Hall.
    cbn [Shape.init_events Obs.renders Obs.runs flat_map Obs.run_of app List.filter] in Hall.
    apply rendered_snoc_inv in Hall. apply failure_some in Hf. done.
Qed.

(** With both programs exiting with status 0 and writing nothing, no
    staged image exists at the end, and the packaging tool was invoked
    all the same. *)
Lemma packaging_once_after_all_renders_witness :
  let w := snd (script exec_ok ∅) in
  length (Obs.packagings (trace w)) = 1%nat
  /\ forallb (fun entry => negb (Fs.exists_ (fs w) (Shape.out_path module_init entry)))
       SIZES = true.
Proof.
  intros w. split.
  - destruct (packaging_once_after_all_renders exec_ok ∅) as (_ & _ & H).
    apply H. vm_compute. reflexivity.
  - vm_compute. reflexivity.
Defined.

(** ** Progress output *)

Section RunLookup.

Variable g : module_globals.

(** Where the [j]-th iteration that went through sits in a run. *)
Lemma lookup_in_run es tl j entry (r : nat) :
  es !! j = Some entry -> (r < 3)%nat ->
  (Shape.init_events g ++ flat_map (Shape.entry_events g) es ++ tl)
    !! (2 + 3 * j + r)%nat
  = Shape.entry_events g entry !! r.
Proof.
  intros Hj Hr. rewrite lookup_app_r by (cbn [Shape.init_events length]; lia).
  cbn [Shape.init_events length].
  replace (2 + 3 * j + r - 2)%nat with (3 * j + r)%nat by lia.
  rewrite lookup_app_l.
  - apply entries_lookup; assumption.
  - rewrite length_entries. apply lookup_lt_Some in Hj. lia.
Qed.

(** Where what follows the iterations sits. *)
Lemma lookup_after_entries es tl (r : nat) :
  (Shape.init_events g ++ flat_map (Shape.entry_events g) es ++ tl)
    !! (2 + 3 * length es + r)%nat
  = tl !! r.
Proof.
  rewrite lookup_app_r by (cbn [Shape.init_events length]; lia).
  cbn [Shape.init_events length].
  rewrite lookup_app_r by (rewrite length_entries; lia).
  rewrite length_entries. f_equal. lia.
Qed.

Lemma length_renders_entries es tl :
  length (Obs.renders (Shape.init_events g ++ flat_map (Shape.entry_events g) es ++ tl))
  = (length es + length (Obs.renders tl))%nat.
Proof.
  rewrite !renders_app, renders_entries, !length_app, length_map. reflexivity.
Qed.

End RunLookup.

Example progress_16 :
  Shape.progress ("icon_16x16.png", 16) = "  icon_16x16.png (16x16)... ".
Proof. reflexivity. Qed.

(** C8.  For the [j]-th entry of [SIZES], once its render is started
    (the run has at least [j + 1] renders), the run has printed the
    entry's progress line just before the render and, the call of
    [generate_png] having returned (the child exited with status 0 and
    its captured output was read), prints the line ["OK"] just after it
    (after a call that raised nothing follows); a run that ends with
    status 0 ends by printing the line ["Done: Resources/AppIcon.icns"]. *)
Theorem progress_lines_around_renders
    (exec : list string -> filesystem -> list event -> outcome * filesystem)
    (f : filesystem) :
  let t := trace (snd (script exec f)) in
  (forall j entry,
     SIZES !! j = Some entry -> (j < length (Obs.renders t))%nat ->
     exists o,
       t !! (2 + 3 * j)%nat = Some (Stdout (Shape.progress entry))
       /\ t !! (3 + 3 * j)%nat
          = Some (Run (Shape.render_args module_init entry) true o)
       /\ (o = Exited 0 -> t !! (4 + 3 * j)%nat = Some (Stdout ("OK" +:+ Str.nl)))
       /\ (o <> Exited 0 -> t !! (4 + 3 * j)%nat = None))
  /\ (fst (script exec f) = 0 ->
      last t = Some (Stdout ("Done: Resources/AppIcon.icns" +:+ Str.nl))).
Proof.
  intros t. subst t.
  destruct (script_shape exec f) as (r & w & _ & -> & _ & Hrun). cbn [fst snd].
  revert Hrun. generalize (trace w). clear w. intros t Hrun.
  assert (Hall : forall tl j entry,
            SIZES !! j = Some entry ->
            let t := Shape.init_events module_init
                     ++ flat_map (Shape.entry_events module_init) SIZES ++ tl in
            exists o,
              t !! (2 + 3 * j)%nat = Some (Stdout (Shape.progress entry))
              /\ t !! (3 + 3 * j)%nat
                 = Some (Run (Shape.render_args module_init entry) true o)
              /\ (o = Exited 0 -> t !! (4 + 3 * j)%nat = Some (Stdout ("OK" +:+ Str.nl)))
              /\ (o <> Exited 0 -> t !! (4 + 3 * j)%nat = None)).
  { intros tl j entry Hj t'. subst t'. exists (Exited 0).
    replace (2 + 3 * j)%nat with (2 + 3 * j + 0)%nat by lia.
    replace (3 + 3 * j)%nat with (2 + 3 * j + 1)%nat by lia.
    replace (4 + 3 * j)%nat with (2 + 3 * j + 2)%nat by lia.
    rewrite !(lookup_in_run _ _ _ _ _ _ Hj) by lia.
    repeat split; try reflexivity. done. }
  split.
  - intros j entry Hj Hlt.
    destruct Hrun as [e | e | k entry' o' e Hk Hf | o' e Hf |].
    + cbn in Hlt. lia.
    + cbn in Hlt. lia.
    + change (g_SIZES module_init) with SIZES in *.
      rewrite length_renders_entries, renders_failed in Hlt.
      assert (Hlen : length (take k SIZES) = k).
      { apply length_take_le. apply lookup_lt_Some in Hk. lia. }
      rewrite Hlen in Hlt. cbn [length] in Hlt.
      destruct (decide (j = k)) as [-> | Hne].
      * rewrite Hk in Hj. injection Hj as ->. exists o'.
        replace (2 + 3 * k)%nat with (2 + 3 * length (take k SIZES) + 0)%nat by lia.
        replace (3 + 3 * k)%nat with (2 + 3 * length (take k SIZES) + 1)%nat by lia.
        replace (4 + 3 * k)%nat with (2 + 3 * length (take k SIZES) + 2)%nat by lia.
        rewrite !lookup_after_entries.
        repeat split; try reflexivity.
        intros ->. apply failure_some in Hf. done.
      * assert (Hj' : take k SIZES !! j = Some entry)
          by (rewrite lookup_take_lt by lia; exact Hj).
        exists (Exited 0).
        replace (2 + 3 * j)%nat with (2 + 3 * j + 0)%nat by lia.
        replace (3 + 3 * j)%nat with (2 + 3 * j + 1)%nat by lia.
        replace (4 + 3 * j)%nat with (2 + 3 * j + 2)%nat by lia.
        rewrite !(lookup_in_run _ _ _ _ _ _ Hj') by lia.
        repeat split; try reflexivity. done.
    + apply Hall. exact Hj.
    + apply Hall. exact Hj.
  - intros Hst. destruct Hrun; try discriminate.
    rewrite !app_assoc, last_app. reflexivity.
Qed.

Lemma progress_lines_around_renders_witness :
  let t := trace (snd (script exec_ok ∅)) in
  t !! 8%nat = Some (Stdout "  icon_32x32.png (32x32)... ")
  /\ t !! 10%nat = Some (Stdout ("OK" +:+ Str.nl))
  /\ last t = Some (Stdout ("Done: Resources/AppIcon.icns" +:+ Str.nl)).
Proof.
  intros t.
  destruct (progress_lines_around_renders exec_ok ∅) as (H1 & H2).
  destruct (H1 2%nat ("icon_32x32.png", 32) eq_refl) as (o & Hp & Hr & Hok & _).
  - vm_compute. lia.
  - split; [exact Hp |]. split; [| apply H2; vm_compute; reflexivity].
    apply Hok.
    assert (Hr' : t !! 9%nat = Some (Run (Shape.render_args module_init ("icon_32x32.png", 32))
                                    true (Exited 0)))
      by (vm_compute; reflexivity).
    change (trace (snd (script exec_ok ∅))) with t in Hr.
    replace (3 + 3 * 2)%nat with 9%nat in Hr by reflexivity.
    rewrite Hr' in Hr. injection Hr as <-. reflexivity.
Defined.

(** ** The render command depends on the arguments only *)

Lemma generate_png_trace
    (exec : list string -> filesystem -> list event -> outcome * filesystem)
    (path : string) (size : Z) (w : world) :
  exists o,
    trace (snd (generate_png exec path size w))
    = trace w ++ [Run ["/usr/bin/swift"; "-e"; swift_code path size] true o].
Proof.
  unfold generate_png, bind.
  destruct (subprocess_run_check exec ["/usr/bin/swift"; "-e"; swift_code path size]
              true true w)
    as (o & f & [(_ & _ & Hrun) | (e & _ & Hrun)]);
    cbv zeta in Hrun; rewrite Hrun; exists o; reflexivity.
Qed.

(** C9.  Whatever the environment and the state of the world, the child
    process [generate_png path size] starts has the command line
    [/usr/bin/swift -e <swift_code path size>], with the captured output:
    two calls with the same arguments issue the same command; and the
    [j]-th render of one run of the script has the command line of the
    [j]-th render of any other run. *)
Theorem render_command_deterministic :
  (forall exec1 exec2 w1 w2 path size,
     exists o1 o2,
       let args := ["/usr/bin/swift"; "-e"; swift_code path size] in
       trace (snd (generate_png exec1 path size w1)) = trace w1 ++ [Run args true o1]
       /\ trace (snd (generate_png exec2 path size w2)) = trace w2 ++ [Run args true o2])
  /\ (forall exec1 exec2 f1 f2 j a1 a2,
        map fst (Obs.renders (trace (snd (script exec1 f1)))) !! j = Some a1 ->
        map fst (Obs.renders (trace (snd (script exec2 f2)))) !! j = Some a2 ->
        a1 = a2).
Proof.
  split.
  - intros exec1 exec2 w1 w2 path size.
    destruct (generate_png_trace exec1 path size w1) as (o1 & H1).
    destruct (generate_png_trace exec2 path size w2) as (o2 & H2).
    exists o1, o2. split; assumption.
  - intros exec1 exec2 f1 f2 j a1 a2.
    destruct (renders_are_listed exec1 f1) as (k1 & _ & ->).
    destruct (renders_are_listed exec2 f2) as (k2 & _ & ->).
    rewrite <- !firstn_map. intros H1 H2.
    apply lookup_take_Some in H1 as [H1 _].
    apply lookup_take_Some in H2 as [H2 _]. congruence.
Qed.

Lemma render_command_deterministic_witness :
  let a := Shape.render_args module_init ("icon_16x16@2x.png", 32) in
  map fst (Obs.renders (trace (snd (script exec_ok ∅)))) !! 1%nat = Some a
  /\ map fst (Obs.renders (trace (snd (script (exec_nth 2 1) ∅)))) !! 1%nat = Some a.
Proof.
  intros a.
  assert (H1 : map fst (Obs.renders (trace (snd (script exec_ok ∅)))) !! 1%nat = Some a)
    by (vm_compute; reflexivity).
  split; [exact H1 |].
  destruct (map fst (Obs.renders (trace (snd (script (exec_nth 2 1) ∅)))) !! 1%nat)
    as [a2 |] eqn:H2; [| vm_compute in H2; discriminate].
  f_equal.
  exact (proj2 render_command_deterministic (exec_nth 2 1) exec_ok ∅ ∅ 1%nat a2 a H2 H1).
Defined.

(** ** Destinations of the renders *)

(** C10.  The ten file names of [SIZES] are pairwise distinct, and so
    are the ten destination paths [main] joins from them; each
    destination is the staging directory, a slash and the file name, so
    that it lies directly in the staging directory; the renders of a
    run are calls of [generate_png] for the first [k] entries, whose
    destinations are pairwise distinct. *)
Theorem staged_paths_distinct :
  length SIZES = 10%nat
  /\ NoDup (map fst SIZES)
  /\ NoDup (map (Shape.out_path module_init) SIZES)
  /\ Forall (fun entry =>
               Shape.out_path module_init entry = "build/AppIcon.iconset/" +:+ fst entry
               /\ Path.split (Shape.out_path module_init entry) = (ICONSET, fst entry))
       SIZES
  /\ forall exec f, exists k,
       map fst (Obs.renders (trace (snd (script exec f))))
       = map (fun entry => ["/usr/bin/swift"; "-e";
                            swift_code (Shape.out_path module_init entry) (snd entry)])
           (take k SIZES)
       /\ NoDup (map (Shape.out_path module_init) (take k SIZES)).
Proof.
  assert (Hnames : NoDup (map fst SIZES))
    by (apply (bool_decide_unpack _); vm_compute; reflexivity).
  assert (Hpaths : NoDup (map (Shape.out_path module_init) SIZES))
    by (apply (bool_decide_unpack _); vm_compute; reflexivity).
  split; [reflexivity |]. split; [exact Hnames |]. split; [exact Hpaths |].
  split; [repeat constructor |].
  intros exec f. destruct (renders_are_listed exec f) as (k & _ & Hk).
  exists k. split; [exact Hk |].
  rewrite <- firstn_map. eapply sublist_NoDup; [exact Hpaths | apply sublist_take].
Qed.

(** ** The size table *)

Example nominal_size_128_2x :
  IconName.nominal_size "icon_128x128@2x.png" = Some 128
  /\ IconName.has_2x_suffix "icon_128x128@2x.png" = true.
Proof. split; reflexivity. Qed.

Example nominal_size_malformed :
  IconName.nominal_size "icon_16x32.png" = None
  /\ IconName.nominal_size "icon_16x16.jpg" = None.
Proof. split; reflexivity. Qed.

(** C2.  [SIZES] has exactly 10 pairs; each file name encodes a nominal
    size; without the [@2x] suffix the pixel size is the nominal size,
    with it the pixel size is twice the nominal size. *)
Theorem sizes_follow_naming_convention :
  length SIZES = 10%nat
  /\ Forall (fun entry : string * Z =>
               exists n, IconName.nominal_size (fst entry) = Some n
                 /\ (IconName.has_2x_suffix (fst entry) = false -> snd entry = n)
                 /\ (IconName.has_2x_suffix (fst entry) = true -> snd entry = 2 * n))
       SIZES.
Proof.
  split; [reflexivity |].
  repeat constructor; cbn [fst snd];
    (eexists; split; [reflexivity |]; split; intros H; vm_compute in H;
     first [discriminate | reflexivity]).
Qed.

(** C3, as the claim has it: eleven entries.  The table has ten. *)
Lemma sizes_are_not_eleven : length SIZES <> 11%nat.
Proof. discriminate. Qed.

(** C3, amended.  [SIZES] has ten hard-coded entries, the module binds
    the name to them, and no run changes the module's globals: [main]
    leaves them as it found them, and at the end of the process [SIZES]
    is still the ten entries. *)
Theorem ten_sizes_never_modified :
  length SIZES = 10%nat
  /\ g_SIZES module_init = SIZES
  /\ (forall exec w, globals (snd (main exec w)) = globals w)
  /\ (forall exec f, g_SIZES (globals (snd (script exec f))) = SIZES).
Proof.
  split; [reflexivity |]. split; [reflexivity |]. split.
  - intros exec w. destruct (main_shape exec w) as (r & w' & t & -> & Hg & _).
    exact Hg.
  - intros exec f. destruct (script_shape exec f) as (r & w & _ & -> & Hg & _).
    cbn [snd]. rewrite Hg. reflexivity.
Qed.

(** ** The directories *)

Section Makedirs.

Variable f : filesystem.

(** [makedirs] of a path of one name is the final [mkdir]. *)
Lemma makedirs_rec_one depth name tail exist_ok :
  Path.split name = (EmptyString, tail) ->
  Fs.makedirs_rec (S depth) name exist_ok f = Fs.mkdir_exist_ok name exist_ok f.
Proof.
  intros Hs. cbn [Fs.makedirs_rec]. rewrite Hs.
  destruct (String.eqb tail EmptyString); reflexivity.
Qed.

(** [makedirs] of a longer path makes the head first when it is not
    there. *)
Lemma makedirs_rec_nested depth name head tail exist_ok :
  Path.split name = (head, tail) ->
  String.eqb head EmptyString = false ->
  String.eqb tail EmptyString = false ->
  String.eqb tail "." = false ->
  Fs.makedirs_rec (S depth) name exist_ok f
  = if Fs.exists_ f head then Fs.mkdir_exist_ok name exist_ok f
    else match Fs.makedirs_rec depth head exist_ok f with
         | inl (OSError EEXIST _) => Fs.mkdir_exist_ok name exist_ok f
         | inl e => inl e
         | inr f' => Fs.mkdir_exist_ok name exist_ok f'
         end.
Proof.
  intros Hs Hh Ht Hdot. cbn [Fs.makedirs_rec]. rewrite Hs. cbv beta iota.
  rewrite Ht. cbv beta iota. rewrite Hh, Ht, Hdot.
  destruct (Fs.exists_ f head); reflexivity.
Qed.

End Makedirs.

Lemma lookup_build (f : filesystem) : Fs.lookup f "build" = f !! ["build"].
Proof. reflexivity. Qed.

Lemma lookup_Resources (f : filesystem) :
  Fs.lookup f "Resources" = f !! ["Resources"].
Proof. reflexivity. Qed.

Lemma lookup_ICONSET (f : filesystem) :
  Fs.lookup f ICONSET = f !! ["build"; "AppIcon.iconset"].
Proof. reflexivity. Qed.

Lemma mkdir_build (f : filesystem) :
  Fs.mkdir "build" f
  = match f !! ["build"] with
    | Some _ => inl (OSError EEXIST "build")
    | None => inr (<[["build"] := Dir]> f)
    end.
Proof. reflexivity. Qed.

Lemma mkdir_Resources (f : filesystem) :
  Fs.mkdir "Resources" f
  = match f !! ["Resources"] with
    | Some _ => inl (OSError EEXIST "Resources")
    | None => inr (<[["Resources"] := Dir]> f)
    end.
Proof. reflexivity. Qed.

Lemma mkdir_ICONSET (f : filesystem) :
  Fs.mkdir ICONSET f
  = match f !! ["build"; "AppIcon.iconset"] with
    | Some _ => inl (OSError EEXIST ICONSET)
    | None =>
        match f !! ["build"] with
        | None => inl (OSError ENOENT ICONSET)
        | Some File => inl (OSError ENOTDIR ICONSET)
        | Some Dir => inr (<[["build"; "AppIcon.iconset"] := Dir]> f)
        end
    end.
Proof. reflexivity. Qed.

(** [os.makedirs(ICONSET, exist_ok=True)], case by case on what is at
    [build] and at [build/AppIcon.iconset]. *)
Ltac makedirs_ICONSET_cases f :=
  unfold Fs.makedirs; change (String.length ICONSET) with 21%nat;
  rewrite (makedirs_rec_nested f _ ICONSET "build" "AppIcon.iconset") by reflexivity;
  rewrite (makedirs_rec_one f _ "build" "build") by reflexivity;
  unfold Fs.mkdir_exist_ok, Fs.exists_, Fs.isdir;
  rewrite mkdir_build, !mkdir_ICONSET, !lookup_build, !lookup_ICONSET;
  let Eb := fresh "Eb" in
  let Ea := fresh "Ea" in
  destruct (f !! ["build"]) as [[|] |] eqn:Eb;
    destruct (f !! ["build"; "AppIcon.iconset"]) as [[|] |] eqn:Ea; try done;
    cbn [negb orb andb];
    rewrite ?mkdir_ICONSET, ?lookup_ICONSET;
    repeat (rewrite ?lookup_insert_eq;
            rewrite ?lookup_insert_ne by discriminate;
            rewrite ?Ea, ?Eb);
    cbn [negb];
    eexists; (split; [reflexivity |]);
    rewrite ?lookup_ICONSET, ?lookup_build;
    repeat (rewrite ?lookup_insert_eq;
            rewrite ?lookup_insert_ne by discriminate;
            rewrite ?Ea, ?Eb).

(** With no file in the way, [os.makedirs(ICONSET, exist_ok=True)] goes
    through and leaves the directory; a file system that has [build] and
    the directory already is left as it is. *)
Lemma makedirs_ICONSET (f : filesystem) :
  Fs.lookup f "build" <> Some File ->
  Fs.lookup f ICONSET <> Some File ->
  exists f',
    Fs.makedirs ICONSET true f = inr f'
    /\ Fs.isdir f' ICONSET = true
    /\ Fs.isdir f' "build" = true
    /\ (forall p, p <> ["build"] -> p <> ["build"; "AppIcon.iconset"] ->
        f' !! p = f !! p).
Proof.
  rewrite lookup_build, lookup_ICONSET. intros Hnb Hna.
  makedirs_ICONSET_cases f;
    (split; [reflexivity |]); (split; [reflexivity |]);
    intros p Hp1 Hp2;
    repeat (rewrite lookup_insert_ne by congruence); reflexivity.
Qed.

(** When the directory is there the call does not fail, whatever else
    the file system holds. *)
Lemma makedirs_ICONSET_exists (f : filesystem) :
  Fs.isdir f ICONSET = true ->
  exists f',
    Fs.makedirs ICONSET true f = inr f'
    /\ (Fs.isdir f "build" = true -> f' = f)
    /\ (forall p, p <> ["build"] -> f' !! p = f !! p).
Proof.
  unfold Fs.isdir at 1. rewrite lookup_ICONSET. intros Hd.
  makedirs_ICONSET_cases f;
    (split; [try done |]);
    intros p Hp1;
    repeat (rewrite lookup_insert_ne by congruence); reflexivity.
Qed.

(** The same for [os.makedirs(os.path.dirname(ICNS_OUT), exist_ok=True)]. *)
Lemma makedirs_Resources (f : filesystem) :
  Fs.lookup f "Resources" <> Some File ->
  exists f',
    Fs.makedirs (Path.dirname ICNS_OUT) true f = inr f'
    /\ Fs.isdir f' "Resources" = true
    /\ (Fs.isdir f "Resources" = true -> f' = f)
    /\ (forall p, p <> ["Resources"] -> f' !! p = f !! p).
Proof.
  rewrite lookup_Resources. intros Hn.
  change (Path.dirname ICNS_OUT) with "Resources".
  unfold Fs.makedirs. change (String.length "Resources") with 9%nat.
  rewrite (makedirs_rec_one f _ "Resources" "Resources") by reflexivity.
  unfold Fs.mkdir_exist_ok, Fs.isdir.
  rewrite mkdir_Resources, !lookup_Resources.
  destruct (f !! ["Resources"]) as [[|] |] eqn:E; [| done |]; cbn [negb orb];
    eexists; (split; [reflexivity |]);
    rewrite ?lookup_Resources, ?lookup_insert_eq, ?E;
    (split; [reflexivity |]); (split; [try done |]);
    intros p Hp; rewrite ?lookup_insert_ne by congruence; reflexivity.
Qed.

Lemma isdir_not_file (f : filesystem) (p : string) :
  Fs.isdir f p = true -> Fs.lookup f p <> Some File.
Proof. unfold Fs.isdir. destruct (Fs.lookup f p) as [[|] |]; done. Qed.

(** The two calls one after the other, as [main] makes them. *)
Lemma main_init_runs (f f1 f2 : filesystem) :
  Fs.makedirs ICONSET true f = inr f1 ->
  Fs.makedirs (Path.dirname ICNS_OUT) true f1 = inr f2 ->
  main_init (start f)
  = (inr tt, {| globals := module_init; fs := f2;
                trace := [Makedirs "build/AppIcon.iconset" true;
                          Makedirs "Resources" true] |}).
Proof.
  intros H1 H2. unfold main_init, bind, load, os_makedirs, start.
  cbn [globals fs trace module_init g_ICONSET g_ICNS_OUT].
  rewrite H1. cbn [globals fs trace module_init g_ICONSET g_ICNS_OUT].
  rewrite H2. reflexivity.
Qed.

(** C7.  The process starts with the two [os.makedirs] calls, and what
    follows runs in the world they leave.  With no file in the way of
    the three directories, the calls go through and afterwards the
    staging directory and the parent of the bundle are directories,
    created if they were absent, and making them once more changes
    nothing.  When the two directories exist the calls do not fail, and
    a file system that also has [build] is left as it is. *)
Theorem directories_created_idempotently
    (exec : list string -> filesystem -> list event -> outcome * filesystem)
    (f : filesystem) :
  let after (f' : filesystem) : world :=
    {| globals := module_init; fs := f';
       trace := [Makedirs "build/AppIcon.iconset" true; Makedirs "Resources" true] |} in
  script exec f
  = match main_init (start f) with
    | (inl e, w) => (1, w)
    | (inr _, w) => let '(r, w') := main_rest exec w in (exit_status r, w')
    end
  /\ (Fs.lookup f "build" <> Some File ->
      Fs.lookup f "build/AppIcon.iconset" <> Some File ->
      Fs.lookup f "Resources" <> Some File ->
      exists f',
        main_init (start f) = (inr tt, after f')
        /\ Fs.isdir f' "build/AppIcon.iconset" = true
        /\ Fs.isdir f' "Resources" = true
        /\ main_init (start f') = (inr tt, after f'))
  /\ (Fs.isdir f "build/AppIcon.iconset" = true ->
      Fs.isdir f "Resources" = true ->
      exists f',
        main_init (start f) = (inr tt, after f')
        /\ (Fs.isdir f "build" = true -> f' = f)).
Proof.
  intros after.
  assert (Hexists : forall f0,
            Fs.isdir f0 ICONSET = true -> Fs.isdir f0 "Resources" = true ->
            exists f',
              main_init (start f0) = (inr tt, after f')
              /\ (Fs.isdir f0 "build" = true -> f' = f0)).
  { intros f0 Ha Hr.
    destruct (makedirs_ICONSET_exists f0 Ha) as (f1 & H1 & Hsame1 & Hoth1).
    assert (Hr1 : Fs.isdir f1 "Resources" = true).
    { unfold Fs.isdir in *. rewrite lookup_Resources in *.
      rewrite Hoth1 by discriminate. exact Hr. }
    destruct (makedirs_Resources f1 (isdir_not_file _ _ Hr1))
      as (f2 & H2 & _ & Hsame2 & _).
    exists f2. split; [exact (main_init_runs _ _ _ H1 H2) |].
    intros Hb. rewrite (Hsame2 Hr1). exact (Hsame1 Hb). }
  split; [| split].
  - unfold script, main, main_init, main_rest, bind, load, os_makedirs, start.
    cbn [globals fs trace].
    destruct (Fs.makedirs (g_ICONSET module_init) true f) as [e1 | f1];
      [reflexivity |].
    cbn [globals fs trace].
    destruct (Fs.makedirs (Path.dirname (g_ICNS_OUT module_init)) true f1) as [e2 | f2];
      reflexivity.
  - intros Hb Ha Hr.
    destruct (makedirs_ICONSET f Hb Ha) as (f1 & H1 & Hd1 & Hb1 & Hoth1).
    assert (Hr1 : Fs.lookup f1 "Resources" <> Some File).
    { rewrite lookup_Resources in *. rewrite Hoth1 by discriminate. exact Hr. }
    destruct (makedirs_Resources f1 Hr1) as (f2 & H2 & Hd2 & _ & Hoth2).
    assert (Hd1' : Fs.isdir f2 ICONSET = true).
    { unfold Fs.isdir in *. rewrite lookup_ICONSET in *.
      rewrite Hoth2 by discriminate. exact Hd1. }
    assert (Hb2 : Fs.isdir f2 "build" = true).
    { unfold Fs.isdir in *. rewrite lookup_build in *.
      rewrite Hoth2 by discriminate. exact Hb1. }
    exists f2. split; [exact (main_init_runs _ _ _ H1 H2) |].
    split; [exact Hd1' |]. split; [exact Hd2 |].
    destruct (Hexists f2 Hd1' Hd2) as (f3 & Hrun & Hsame).
    rewrite Hrun, (Hsame Hb2). reflexivity.
  - exact (Hexists f).
Qed.

Example fresh_file_system :
  Fs.lookup (∅ : filesystem) "build" <> Some File
  /\ Fs.lookup (∅ : filesystem) "build/AppIcon.iconset" <> Some File
  /\ Fs.lookup (∅ : filesystem) "Resources" <> Some File.
Proof. repeat split; discriminate. Qed.

Lemma directories_created_idempotently_witness :
  exists f' : filesystem,
    fs (snd (main_init (start ∅))) = f'
    /\ Fs.isdir f' "build/AppIcon.iconset" = true
    /\ Fs.isdir f' "Resources" = true
    /\ fs (snd (main_init (start f'))) = f'.
Proof.
  destruct (directories_created_idempotently exec_ok ∅) as (_ & H & _).
  destruct H as (f' & Hrun & Hd1 & Hd2 & Hagain); try discriminate.
  exists f'. rewrite Hrun, Hagain. repeat split; assumption.
Defined.

Example program_16_length : length (Drawing.program 16) = 21%nat.
Proof. reflexivity. Qed.

(** ** The text of the drawing program *)

Lemma append_cons c a b : String c a +:+ b = String c (a +:+ b).
Proof. reflexivity. Qed.

Lemma startswith_app p s t :
  Str.startswith p s = true -> Str.startswith p (s +:+ t) = true.
Proof.
  revert s. induction p as [| a p IH]; intros s H; [reflexivity |].
  destruct s as [| b s]; [discriminate |]. rewrite append_cons.
  cbn [Str.startswith] in *.
  destruct (Ascii.eqb a b); [apply IH; exact H | discriminate].
Qed.

Lemma contains_app_l sub a b :
  Str.contains sub a = true -> Str.contains sub (a +:+ b) = true.
Proof.
  induction a as [| c a IH]; intros H.
  - cbn [Str.contains] in H. rewrite orb_false_r in H.
    destruct sub; [| discriminate]. destruct b; reflexivity.
  - rewrite append_cons. cbn [Str.contains] in *.
    apply orb_true_iff in H as [H | H]; apply orb_true_iff.
    + left. rewrite <- append_cons. apply startswith_app, H.
    + right. apply IH. exact H.
Qed.

Lemma contains_app_r sub a b :
  Str.contains sub b = true -> Str.contains sub (a +:+ b) = true.
Proof.
  intros H. induction a as [| c a IH]; [exact H |].
  rewrite append_cons. cbn [Str.contains]. rewrite IH. apply orb_true_r.
Qed.

Lemma contains_refl s : Str.contains s s = true.
Proof.
  assert (H : forall p, Str.startswith p p = true).
  { induction p as [| a p IH]; [reflexivity |]. cbn. rewrite Ascii.eqb_refl. exact IH. }
  destruct s; cbn; [reflexivity |]. rewrite Ascii.eqb_refl, H. reflexivity.
Qed.

Lemma contains_unlines line lines :
  In line lines -> Str.contains line (Str.unlines lines) = true.
Proof.
  induction lines as [| l lines IH]; intros Hin; [destruct Hin |].
  cbn [Str.unlines]. destruct Hin as [-> | Hin].
  - apply contains_app_l, contains_refl.
  - apply contains_app_r, contains_app_r, IH, Hin.
Qed.

(** Every line of the template is in the text, whatever is substituted. *)
Lemma swift_code_has_line path size line :
  In line Template.body_lines ->
  Str.contains line (swift_code path size) = true.
Proof.
  intros Hin. unfold swift_code, Template.body.
  apply contains_app_r, contains_app_r, contains_app_l, contains_app_l.
  apply contains_unlines, Hin.
Qed.

Lemma int_of_str_int n : int_of_str (Str.str_int n) = Some n.
Proof.
  unfold int_of_str, Str.str_int. rewrite NilZero.isi.
  - cbn [option_map]. rewrite DecimalZ.of_to. reflexivity.
  - destruct n; cbn; [discriminate | | discriminate].
    intros H. injection H as H. exact (DecimalPos.Unsigned.to_uint_nonnil _ H).
  - destruct n; cbn; [discriminate | discriminate |].
    intros H. injection H as H. exact (DecimalPos.Unsigned.to_uint_nonnil _ H).
Qed.

(** C1, as the claim has it: the bars along the top edge of the card and
    the arrow near the top of the canvas.  Whichever way the [y] axis
    points, the drawing for the edge length 16 has not both: the bars
    lie at the card's side of larger [y], the arrow at the canvas's side
    of smaller [y]. *)
Lemma bars_and_arrow_not_both_on_top :
  ~ exists axis, Drawing.bars_and_arrow_on_top axis (inject_Z 16).
Proof.
  intros [axis [Hbars Harrow]].
  destruct axis.
  - apply Forall_inv in Harrow. vm_compute in Harrow. discriminate.
  - apply Forall_inv in Hbars. vm_compute in Hbars. discriminate.
Qed.

Lemma inject_Z_pos (n : Z) : 0 < n -> (0 < inject_Z n)%Q.
Proof. intros H. unfold Qlt. cbn. lia. Qed.

(** Linear arithmetic over the rationals, with the halving of [cardX]. *)
Ltac solve_layout :=
  unfold Qdiv; try change (/ 2)%Q with (1 # 2)%Q; lra.

(** C1, amended.  For a positive edge length, the text [generate_png]
    builds is the fixed template with the decimal numeral of the edge
    length and the path substituted, every line of the template in it.
    Read over the rationals, its drawing has a rounded-square background
    inset by 5% of the edge length on each side with corner radius 22%;
    a card 52% wide and 46% high, centred horizontally; three bars, 6%
    wide and 14% high, within the card's width, ending 3% short of the
    card's side of larger [y] and nearer to that side; an arrow of seven
    vertices between 12% and 31.5% of the edge length in [y], nearer to
    the canvas's side of smaller [y]; and every length and coordinate is
    the edge length times the one of the drawing for edge length 1. *)
Theorem drawing_program_layout (path : string) (size : Z) :
  0 < size ->
  let s := inject_Z size in
  let background := Drawing.rect s in
  let card := Drawing.cardRect s in
  swift_code path size
  = Template.head +:+ Str.str_int size +:+ Template.body +:+ path +:+ Template.tail
  /\ int_of_str (Str.str_int size) = Some size
  /\ (forall line, In line Template.body_lines ->
      Str.contains line (swift_code path size) = true)
  /\ (Drawing.x background == 0.05 * s
      /\ Drawing.y background == 0.05 * s
      /\ s - (Drawing.x background + Drawing.width background) == 0.05 * s
      /\ s - (Drawing.y background + Drawing.height background) == 0.05 * s
      /\ Drawing.radius s == 0.22 * s)%Q
  /\ (Drawing.width card == 0.52 * s
      /\ Drawing.height card == 0.46 * s
      /\ Drawing.x card + Drawing.width card / 2 == s / 2)%Q
  /\ length (Drawing.pins s) = 3%nat
  /\ Forall (fun px =>
               let bar := Drawing.pinRect s px in
               (Drawing.width bar == 0.06 * s
                /\ Drawing.height bar == 0.14 * s
                /\ Drawing.width bar < Drawing.height bar
                /\ Drawing.x card <= Drawing.x bar
                /\ Drawing.x bar + Drawing.width bar
                   <= Drawing.x card + Drawing.width card
                /\ Drawing.y bar + Drawing.height bar
                   == Drawing.y card + Drawing.height card - 0.03 * s)%Q
               /\ Drawing.nearer_high (Drawing.extent_of card) (Drawing.extent_of bar))
       (Drawing.pins s)
  /\ length (Drawing.arrow s) = 7%nat
  /\ Forall (fun p =>
               (0.12 * s <= Drawing.py p /\ Drawing.py p <= 0.315 * s)%Q
               /\ Drawing.nearer_low (0%Q, s) (Drawing.extent_at p))
       (Drawing.arrow s)
  /\ Forall2 Qeq
       (flat_map Drawing.lengths (Drawing.program size))
       (map (Qmult s) (flat_map Drawing.lengths (Drawing.program 1))).
Proof.
  intros Hsize. unfold Drawing.program. cbv zeta.
  generalize (inject_Z_pos size Hsize). generalize (inject_Z size). intros s Hs.
  split; [reflexivity |]. split; [apply int_of_str_int |].
  split; [intros line; apply swift_code_has_line |].
  split.
  { unfold Drawing.rect, Drawing.radius, Drawing.inset. cbn. repeat split; solve_layout. }
  split.
  { unfold Drawing.cardRect, Drawing.cardX, Drawing.cardW, Drawing.cardH. cbn.
    repeat split; solve_layout. }
  split; [reflexivity |].
  split.
  { unfold Drawing.pins, Drawing.pinRect, Drawing.nearer_high, Drawing.extent_of,
      Drawing.cardRect, Drawing.cardX, Drawing.cardY, Drawing.cardW, Drawing.cardH,
      Drawing.pinW, Drawing.pinH.
    repeat constructor; cbn; solve_layout. }
  split; [reflexivity |].
  split.
  { unfold Drawing.arrow, Drawing.nearer_low, Drawing.extent_at,
      Drawing.cx, Drawing.ay, Drawing.az.
    repeat constructor; cbn; solve_layout. }
  change (inject_Z 1) with 1%Q.
  unfold Drawing.commands, Drawing.arrow, Drawing.pins, Drawing.pinRect,
    Drawing.rect, Drawing.cardRect, Drawing.radius, Drawing.cardRadius,
    Drawing.inset, Drawing.cardX, Drawing.cardY, Drawing.cardW, Drawing.cardH,
    Drawing.pinW, Drawing.pinH, Drawing.cx, Drawing.ay, Drawing.az.
  cbn [map app flat_map Drawing.lengths Drawing.x Drawing.y Drawing.width
       Drawing.height Drawing.px Drawing.py].
  repeat match goal with
         | |- Forall2 _ _ _ => constructor
         end; solve_layout.
Qed.

Lemma drawing_program_layout_witness :
  int_of_str (Str.str_int 16) = Some 16
  /\ (Drawing.radius (inject_Z 16) == 0.22 * inject_Z 16)%Q
  /\ length (Drawing.arrow (inject_Z 16)) = 7%nat.
Proof.
  destruct (drawing_program_layout "build/AppIcon.iconset/icon_16x16.png" 16)
    as (_ & Hnum & _ & (_ & _ & _ & _ & Hradius) & _ & _ & _ & Harrow & _).
  - lia.
  - split; [exact Hnum |]. split; [exact Hradius | exact Harrow].
Defined.


(** * Further properties of the script *)

(** ** The text determines the arguments *)

Lemma append_inj_l a x y : a +:+ x = a +:+ y -> x = y.
Proof.
  induction a as [| c a IH]; intros H; [exact H |].
  rewrite !append_cons in H. injection H as H. apply IH, H.
Qed.

Lemma length_append a b :
  String.length (a +:+ b) = (String.length a + String.length b)%nat.
Proof.
  induction a as [| c a IH]; [reflexivity |].
  rewrite append_cons. cbn [String.length]. rewrite IH. reflexivity.
Qed.

Lemma append_inj_r t x : forall y, x +:+ t = y +:+ t -> x = y.
Proof.
  induction x as [| c x IH]; intros [| d y] H.
  - reflexivity.
  - apply (f_equal String.length) in H. rewrite !length_append in H.
    cbn [String.length] in H. lia.
  - apply (f_equal String.length) in H. rewrite !length_append in H.
    cbn [String.length] in H. lia.
  - rewrite !append_cons in H. injection H as -> H. f_equal. apply IH, H.
Qed.

(** Two texts with the same character after a prefix free of it have
    the same prefix. *)
Lemma append_cut c a : forall b x y,
  Chars.mem c a = false -> Chars.mem c b = false ->
  a +:+ String c x = b +:+ String c y -> a = b /\ x = y.
Proof.
  induction a as [| d a IH]; intros [| e b] x y Ha Hb H.
  - injection H as ->. split; reflexivity.
  - rewrite append_cons in H. injection H as <- _.
    cbn [Chars.mem] in Hb. rewrite Ascii.eqb_refl in Hb. discriminate.
  - rewrite append_cons in H. injection H as -> _.
    cbn [Chars.mem] in Ha. rewrite Ascii.eqb_refl in Ha. discriminate.
  - rewrite !append_cons in H. injection H as -> H.
    cbn [Chars.mem] in Ha, Hb.
    apply orb_false_iff in Ha as [_ Ha]. apply orb_false_iff in Hb as [_ Hb].
    destruct (IH b x y Ha Hb H) as [-> ->]. split; reflexivity.
Qed.

Lemma string_of_uint_no_newline d :
  Chars.mem Chars.newline (NilEmpty.string_of_uint d) = false.
Proof. induction d; cbn [NilEmpty.string_of_uint Chars.mem]; try rewrite IHd; reflexivity. Qed.

(** The numeral of an integer has no line feed. *)
Lemma str_int_no_newline n : Chars.mem Chars.newline (Str.str_int n) = false.
Proof.
  unfold Str.str_int, NilZero.string_of_int, NilZero.string_of_uint.
  destruct (Z.to_int n) as [d | d]; destruct d;
    cbn [Chars.mem]; rewrite ?string_of_uint_no_newline; reflexivity.
Qed.

Lemma str_int_inj m n : Str.str_int m = Str.str_int n -> m = n.
Proof.
  intros H. apply (f_equal int_of_str) in H. rewrite !int_of_str_int in H.
  injection H as ->. reflexivity.
Qed.

(** X1.  The text of the drawing program determines both arguments of
    [generate_png]: two calls build the same text only for the same path
    and the same size. *)
Theorem swift_code_inj (path1 path2 : string) (size1 size2 : Z) :
  swift_code path1 size1 = swift_code path2 size2 ->
  path1 = path2 /\ size1 = size2.
Proof.
  unfold swift_code. intros H. apply append_inj_l in H.
  assert (Hbody : exists rest, Template.body = String Chars.newline rest)
    by (eexists; reflexivity).
  destruct Hbody as [rest Hbody]. rewrite Hbody in H. rewrite !append_cons in H.
  apply append_cut in H as [Hsize H]; try apply str_int_no_newline.
  apply append_inj_l, append_inj_r in H.
  split; [exact H | apply str_int_inj, Hsize].
Qed.

Lemma swift_code_inj_witness :
  "a.png" = "a.png" /\ 16 = 16.
Proof. apply (swift_code_inj "a.png" "a.png" 16 16). reflexivity. Defined.

(** ** Success, and what a run prints *)

Section MoreTraceFacts.

Variable g : module_globals.

Lemma runs_entries es :
  Obs.runs (flat_map (Shape.entry_events g) es) = map (rendered g) es.
Proof.
  induction es as [| e es IH]; [reflexivity |].
  cbn [flat_map]. rewrite runs_app, IH. reflexivity.
Qed.

Lemma stdout_app t1 t2 : Out.stdout (t1 ++ t2) = Out.stdout t1 ++ Out.stdout t2.
Proof. unfold Out.stdout. apply flat_map_app. Qed.

Lemma count_app text t1 t2 :
  Out.count text (t1 ++ t2) = (Out.count text t1 + Out.count text t2)%nat.
Proof. unfold Out.count. rewrite stdout_app, List.filter_app, length_app. reflexivity. Qed.

Lemma succeeded_app t1 t2 :
  Out.succeeded (t1 ++ t2) = Out.succeeded t1 ++ Out.succeeded t2.
Proof. unfold Out.succeeded. rewrite renders_app. apply List.filter_app. Qed.

(** A progress line is none of the three fixed lines. *)
Lemma progress_is_no_fixed_line entry :
  String.eqb Shape.ok_line (Shape.progress entry) = false
  /\ String.eqb (Shape.done_line g) (Shape.progress entry) = false.
Proof. split; reflexivity. Qed.

Lemma count_ok_entries es :
  Out.count Shape.ok_line (flat_map (Shape.entry_events g) es) = length es.
Proof.
  induction es as [| e es IH]; [reflexivity |].
  cbn [flat_map]. rewrite count_app, IH.
  unfold Out.count. cbn [Shape.entry_events Out.stdout flat_map Out.text_of app List.filter].
  rewrite (proj1 (progress_is_no_fixed_line e)). reflexivity.
Qed.

Lemma succeeded_entries es :
  Out.succeeded (flat_map (Shape.entry_events g) es) = map (rendered g) es.
Proof.
  induction es as [| e es IH]; [reflexivity |].
  cbn [flat_map]. rewrite succeeded_app, IH. reflexivity.
Qed.

Lemma succeeded_failed entry o e :
  Shape.failure (Shape.render_args g entry) o = Some e ->
  Out.succeeded (Shape.failed_entry_events g entry o) = [].
Proof.
  intros Hf. unfold Out.succeeded. rewrite renders_failed. cbn [List.filter snd].
  destruct o as [rc | errno | rc]; [| reflexivity | reflexivity].
  cbn [Shape.failure] in Hf. destruct (rc =? 0); [discriminate | reflexivity].
Qed.

(** The line [Done] is not printed within the iterations. *)
Lemma done_not_in_entries es :
  ~ In (Shape.done_line g) (Out.stdout (flat_map (Shape.entry_events g) es)).
Proof.
  induction es as [| e es IH]; [intros [] |].
  cbn [flat_map]. rewrite stdout_app, in_app_iff. intros [H | H]; [| exact (IH H)].
  cbn [Shape.entry_events Out.stdout flat_map Out.text_of app In] in H.
  destruct H as [H | [H | []]].
  - pose proof (proj2 (progress_is_no_fixed_line e)) as Hne.
    rewrite <- H, String.eqb_refl in Hne. discriminate.
  - assert (Hne : String.eqb (Shape.done_line g) Shape.ok_line = false) by reflexivity.
    rewrite <- H, String.eqb_refl in Hne. discriminate.
Qed.

(** The child processes of a run are renders with the output captured
    and packagings without. *)
Lemma shape_run_event t r args cap o :
  Shape.run g t r -> In (Run args cap o) t ->
  (exists entry, args = Shape.render_args g entry /\ cap = true)
  \/ (args = Shape.package_args g /\ cap = false).
Proof.
  assert (Hmid : forall es, In (Run args cap o) (flat_map (Shape.entry_events g) es) ->
                      exists entry, args = Shape.render_args g entry /\ cap = true).
  { intros es Hin. apply in_flat_map in Hin as (e & _ & Hin).
    cbn [Shape.entry_events In] in Hin.
    destruct Hin as [H | [H | [H | []]]]; try discriminate.
    injection H as <- <- _. eauto. }
  assert (Hinit : ~ In (Run args cap o) (Shape.init_events g)).
  { intros [H | [H | []]]; discriminate. }
  intros [e | e | k entry o' e Hk Hf | o' e Hf |] Hin.
  - destruct Hin as [H | []]; discriminate.
  - destruct (Hinit Hin).
  - apply in_app_iff in Hin as [Hin | Hin]; [destruct (Hinit Hin) |].
    apply in_app_iff in Hin as [Hin | Hin]; [left; exact (Hmid _ Hin) |].
    destruct Hin as [H | [H | []]]; [discriminate |].
    injection H as <- <- _. left. eauto.
  - apply in_app_iff in Hin as [Hin | Hin]; [destruct (Hinit Hin) |].
    apply in_app_iff in Hin as [Hin | Hin]; [left; exact (Hmid _ Hin) |].
    destruct Hin as [H | [H | []]]; [discriminate |].
    injection H as <- <- _. right. split; reflexivity.
  - apply in_app_iff in Hin as [Hin | Hin]; [destruct (Hinit Hin) |].
    apply in_app_iff in Hin as [Hin | Hin]; [left; exact (Hmid _ Hin) |].
    destruct Hin as [H | [H | [H | []]]]; try discriminate.
    injection H as <- <- _. right. split; reflexivity.
Qed.

End MoreTraceFacts.

(** X2.  The process ends with status 0 exactly when it started eleven
    child processes, the ten renders of [SIZES] in order and then the
    packaging, and each of them exited with status 0. *)
Theorem exit_status_zero_iff
    (exec : list string -> filesystem -> list event -> outcome * filesystem)
    (f : filesystem) :
  fst (script exec f) = 0
  <-> Obs.runs (trace (snd (script exec f)))
      = map (rendered module_init) SIZES
        ++ [(Shape.package_args module_init, Exited 0)].
Proof.
  destruct (script_shape exec f) as (r & w & _ & -> & _ & Hrun). cbn [fst snd].
  revert Hrun. generalize (trace w). clear w. intros t Hrun.
  destruct Hrun as [e | e | k entry o e Hk Hf | o e Hf |]; split; intros H;
    try discriminate; try reflexivity; try exfalso.
  - rewrite !runs_app, runs_entries in H.
    cbn [Shape.init_events Shape.failed_entry_events Obs.runs flat_map Obs.run_of app] in H.
    apply (f_equal last) in H. rewrite !last_snoc in H.
    injection H as _ ->. apply failure_some in Hf. done.
  - rewrite !runs_app, runs_entries in H.
    cbn [Shape.init_events Obs.runs flat_map Obs.run_of app] in H.
    apply (f_equal last) in H. rewrite !last_snoc in H.
    injection H as ->. apply failure_some in Hf. done.
Qed.

(** X3.  A run prints the line ["OK"] once for every call of
    [generate_png] that returned (the child exited with status 0 and its
    captured output was read), and never otherwise. *)
Theorem ok_printed_once_per_successful_render
    (exec : list string -> filesystem -> list event -> outcome * filesystem)
    (f : filesystem) :
  let t := trace (snd (script exec f)) in
  Out.count ("OK" +:+ Str.nl) t = length (Out.succeeded t).
Proof.
  intros t. subst t.
  destruct (script_shape exec f) as (r & w & _ & -> & _ & Hrun). cbn [snd].
  revert Hrun. generalize (trace w). clear w. intros t Hrun.
  change ("OK" +:+ Str.nl) with Shape.ok_line.
  destruct Hrun as [e | e | k entry o e Hk Hf | o e Hf |];
    rewrite ?count_app, ?succeeded_app, ?length_app,
      ?count_ok_entries, ?succeeded_entries, ?length_map,
      ?(succeeded_failed _ _ _ _ Hf);
    reflexivity.
Qed.

(** X4.  The line ["Done: Resources/AppIcon.icns"] is on the standard
    output of a run exactly when the process ends with status 0. *)
Theorem done_printed_iff_success
    (exec : list string -> filesystem -> list event -> outcome * filesystem)
    (f : filesystem) :
  In ("Done: Resources/AppIcon.icns" +:+ Str.nl)
     (Out.stdout (trace (snd (script exec f))))
  <-> fst (script exec f) = 0.
Proof.
  destruct (script_shape exec f) as (r & w & _ & -> & _ & Hrun). cbn [fst snd].
  revert Hrun. generalize (trace w). clear w. intros t Hrun.
  change ("Done: Resources/AppIcon.icns" +:+ Str.nl) with (Shape.done_line module_init).
  destruct Hrun as [e | e | k entry o e Hk Hf | o e Hf |]; split; intros H;
    try discriminate H; try reflexivity.
  - destruct H.
  - destruct H.
  - exfalso. rewrite !stdout_app, !in_app_iff in H. destruct H as [[] | [H | H]].
    + exact (done_not_in_entries _ _ H).
    + destruct H as [H | []].
      pose proof (proj2 (progress_is_no_fixed_line module_init entry)) as Hne.
      rewrite <- H, String.eqb_refl in Hne. discriminate.
  - exfalso. rewrite !stdout_app, !in_app_iff in H. destruct H as [[] | [H | H]].
    + exact (done_not_in_entries _ _ H).
    + destruct H as [H | []]. discriminate.
  - rewrite !stdout_app, !in_app_iff. right. right. right. left. reflexivity.
Qed.

(** X5.  When a child process of a run cannot be started at all, the
    [OSError] of the failed start, with the name of the program, is what
    [main] ends with, the process ends with status 1, and the failed
    start is the last event of the run. *)
Theorem unstartable_child_aborts_run
    (exec : list string -> filesystem -> list event -> outcome * filesystem)
    (f : filesystem) (i : nat) (args : list string) (cap : bool) (errno : os_error) :
  trace (snd (script exec f)) !! i = Some (Run args cap (ExecFailed errno)) ->
  fst (main exec (start f)) = inl (OSError errno (List.hd EmptyString args))
  /\ (List.hd EmptyString args = "/usr/bin/swift"
      \/ List.hd EmptyString args = "iconutil")
  /\ fst (script exec f) = 1
  /\ length (trace (snd (script exec f))) = S i.
Proof.
  intros Hi.
  destruct (script_shape exec f) as (r & w & Hmain & Hscript & _ & Hrun).
  rewrite Hscript in *. rewrite Hmain. cbn [fst snd] in *.
  assert (Ho : ExecFailed errno <> Exited 0) by discriminate.
  destruct (shape_failing_run_last _ _ _ _ _ _ _ Hrun Hi Ho) as (Hlen & e & -> & Hf).
  cbn [Shape.failure] in Hf. injection Hf as <-.
  split; [reflexivity |]. split; [| split; [reflexivity | exact Hlen]].
  apply list_elem_of_lookup_2, list_elem_of_In in Hi.
  destruct (shape_run_event _ _ _ _ _ _ Hrun Hi) as [(entry & -> & _) | [-> _]];
    [left | right]; reflexivity.
Qed.

Lemma unstartable_child_aborts_run_witness :
  fst (main exec_missing (start ∅)) = inl (OSError ENOENT "/usr/bin/swift")
  /\ length (trace (snd (script exec_missing ∅))) = 4%nat.
Proof.
  destruct (unstartable_child_aborts_run exec_missing ∅ 3
              (Shape.render_args module_init ("icon_16x16.png", 16)) true ENOENT)
    as (H1 & _ & _ & H4).
  - vm_compute. reflexivity.
  - split; [exact H1 | exact H4].
Defined.

(** X6.  Every child process of a run is started either as a render,
    with its output captured, or as the packaging, with its output left
    on the terminal. *)
Theorem renders_captured_packaging_not
    (exec : list string -> filesystem -> list event -> outcome * filesystem)
    (f : filesystem) (i : nat) (args : list string) (cap : bool) (o : outcome) :
  trace (snd (script exec f)) !! i = Some (Run args cap o) ->
  cap = Obs.is_render args /\ Obs.is_package args = negb cap.
Proof.
  intros Hi.
  destruct (script_shape exec f) as (r & w & _ & Hscript & _ & Hrun).
  rewrite Hscript in *. cbn [snd] in *.
  apply list_elem_of_lookup_2, list_elem_of_In in Hi.
  destruct (shape_run_event _ _ _ _ _ _ Hrun Hi) as [(entry & -> & ->) | [-> ->]];
    split; reflexivity.
Qed.

Lemma renders_captured_packaging_not_witness :
  true = Obs.is_render (Shape.render_args module_init ("icon_16x16.png", 16)).
Proof.
  apply (renders_captured_packaging_not exec_ok ∅ 3
           (Shape.render_args module_init ("icon_16x16.png", 16)) true (Exited 0)).
  vm_compute. reflexivity.
Defined.

(** ** What the script does to the file system *)

Lemma grows_refl (f : filesystem) : grows_by_directories f f.
Proof. split; [reflexivity |]. intros p n H1 H2. congruence. Qed.

Lemma grows_trans (f1 f2 f3 : filesystem) :
  grows_by_directories f1 f2 -> grows_by_directories f2 f3 ->
  grows_by_directories f1 f3.
Proof.
  intros [Hs1 Hd1] [Hs2 Hd2]. split; [etrans; eassumption |].
  intros p n H3 H1. destruct (f2 !! p) as [m |] eqn:H2.
  - pose proof (lookup_weaken _ _ _ _ H2 Hs2) as H3'.
    rewrite H3 in H3'. injection H3' as ->. exact (Hd1 _ _ H2 H1).
  - exact (Hd2 _ _ H3 H2).
Qed.

Lemma at_names_None (f : filesystem) (ns : list string) : Fs.at_names f ns = None -> f !! ns = None.
Proof.
  unfold Fs.at_names. destruct ns as [| a ns]; [done |].
  destruct a as [| c a]; [destruct ns; done |].
  destruct c as [[] [] [] [] [] [] [] []]; try (destruct ns; done);
    destruct a; destruct ns; done.
Qed.

Lemma mkdir_grows (p : string) (f f' : filesystem) :
  Fs.mkdir p f = inr f' -> grows_by_directories f f'.
Proof.
  unfold Fs.mkdir, Fs.lookup.
  destruct (String.eqb p EmptyString); [discriminate |].
  destruct (Fs.at_names f (Path.names p)) eqn:Hat; [discriminate |].
  destruct (Fs.at_names f (removelast (Path.names p))) as [[|] |]; try discriminate.
  intros H. injection H as <-. apply at_names_None in Hat. split.
  - apply insert_subseteq, Hat.
  - intros q n Hq Hnone. apply lookup_insert_Some in Hq as [[_ <-] | [_ Hq]];
      [reflexivity | congruence].
Qed.

Lemma mkdir_exist_ok_grows (name : string) (ok : bool) (f f' : filesystem) :
  Fs.mkdir_exist_ok name ok f = inr f' -> grows_by_directories f f'.
Proof.
  unfold Fs.mkdir_exist_ok. destruct (Fs.mkdir name f) as [e | f1] eqn:Hm.
  - destruct (negb ok || negb (Fs.isdir f name)); [discriminate |].
    intros H. injection H as <-. apply grows_refl.
  - intros H. injection H as <-. exact (mkdir_grows _ _ _ Hm).
Qed.

(** [os.makedirs] keeps what is there and adds directories only. *)
Lemma makedirs_rec_grows (depth : nat) (ok : bool) :
  forall (name : string) (f f' : filesystem),
    Fs.makedirs_rec depth name ok f = inr f' -> grows_by_directories f f'.
Proof.
  induction depth as [| depth IH]; intros name f f'; [discriminate |].
  cbn [Fs.makedirs_rec].
  destruct (Path.split name) as [head tail].
  destruct (if String.eqb tail EmptyString then Path.split head else (head, tail))
    as [head' tail'].
  destruct (negb (String.eqb head' EmptyString) && negb (String.eqb tail' EmptyString)
            && negb (Fs.exists_ f head')).
  - destruct (Fs.makedirs_rec depth head' ok f) as [e | f1] eqn:Hrec.
    + destruct e as [[] filename | | |]; try discriminate.
      destruct (String.eqb tail' ".").
      * intros H. injection H as <-. apply grows_refl.
      * apply mkdir_exist_ok_grows.
    + pose proof (IH _ _ _ Hrec) as H1. destruct (String.eqb tail' ".").
      * intros H. injection H as <-. exact H1.
      * intros H. apply mkdir_exist_ok_grows in H. exact (grows_trans _ _ _ H1 H).
  - apply mkdir_exist_ok_grows.
Qed.

Section QuietChildren.

Variable exec : list string -> filesystem -> list event -> outcome * filesystem.

(** The child processes leave the file system as they find it. *)
Hypothesis exec_quiet : forall args f t, snd (exec args f t) = f.

Lemma subprocess_run_quiet args check cap text w :
  fs (snd (subprocess_run exec args check cap text w)) = fs w.
Proof.
  unfold subprocess_run. pose proof (exec_quiet args (fs w) (trace w)) as Hq.
  destruct (exec args (fs w) (trace w)) as [o f]. cbn [snd] in Hq. subst f.
  destruct (seen cap text o) as [rc | errno | rc];
    [destruct (check && negb (rc =? 0)) | |]; reflexivity.
Qed.

Lemma main_loop_quiet entries : forall w,
  fs (snd (main_loop exec entries w)) = fs w.
Proof.
  induction entries as [| [name size] rest IH]; intros w; [reflexivity |].
  cbn [main_loop]. unfold bind at 1. unfold load at 1.
  unfold bind at 1. unfold print at 1, emit at 1.
  unfold bind at 1. unfold generate_png. unfold bind at 1.
  match goal with |- context [subprocess_run exec ?a ?c ?d ?x ?w1] =>
    pose proof (subprocess_run_quiet a c d x w1) as Hq;
    destruct (subprocess_run exec a c d x w1) as [[e | rc] w2] end;
    cbn [snd fs] in Hq; [exact Hq |].
  unfold ret at 1. unfold bind at 1. unfold print at 1, emit at 1.
  rewrite IH. cbn [fs]. exact Hq.
Qed.

Lemma main_rest_quiet w : fs (snd (main_rest exec w)) = fs w.
Proof.
  unfold main_rest. unfold bind at 1. unfold load at 1. unfold bind at 1.
  pose proof (main_loop_quiet (g_SIZES (globals w)) w) as Hloop.
  destruct (main_loop exec (g_SIZES (globals w)) w) as [[e | []] w1];
    cbn [snd] in Hloop; [exact Hloop |].
  unfold bind at 1. unfold print at 1, emit at 1.
  unfold bind at 1. unfold load at 1. unfold bind at 1. unfold load at 1.
  unfold bind at 1.
  match goal with |- context [subprocess_run exec ?a ?c ?d ?x ?w2] =>
    pose proof (subprocess_run_quiet a c d x w2) as Hq;
    destruct (subprocess_run exec a c d x w2) as [[e | rc] w3] end;
    cbn [snd fs] in Hq; [cbn [snd]; congruence |].
  unfold bind, load, print, emit. cbn [snd fs]. congruence.
Qed.

End QuietChildren.

Lemma main_init_grows (f : filesystem) :
  grows_by_directories f (fs (snd (main_init (start f)))).
Proof.
  unfold main_init, bind, load, os_makedirs, start. cbn [globals fs trace].
  destruct (Fs.makedirs (g_ICONSET module_init) true f) as [e1 | f1] eqn:H1;
    cbn [snd fs globals]; [apply grows_refl |].
  apply makedirs_rec_grows in H1.
  destruct (Fs.makedirs (Path.dirname (g_ICNS_OUT module_init)) true f1) as [e2 | f2] eqn:H2;
    cbn [snd fs]; [exact H1 |].
  apply makedirs_rec_grows in H2. exact (grows_trans _ _ _ H1 H2).
Qed.

(** The process is the first two statements of [main] and then the
    rest. *)
Lemma script_splits
    (exec : list string -> filesystem -> list event -> outcome * filesystem)
    (f : filesystem) :
  script exec f
  = match main_init (start f) with
    | (inl e, w) => (1, w)
    | (inr _, w) => let '(r, w') := main_rest exec w in (exit_status r, w')
    end.
Proof.
  unfold script, main, main_init, main_rest, bind, load, os_makedirs, start.
  cbn [globals fs trace].
  destruct (Fs.makedirs (g_ICONSET module_init) true f) as [e1 | f1];
    [reflexivity |].
  cbn [globals fs trace].
  destruct (Fs.makedirs (Path.dirname (g_ICNS_OUT module_init)) true f1) as [e2 | f2];
    reflexivity.
Qed.

(** X7.  The script itself neither removes nor overwrites anything and
    writes no file: when the child processes leave the file system as
    they find it, everything that was there before the run is there
    after it, unchanged, and whatever is new is a directory. *)
Theorem script_only_adds_directories
    (exec : list string -> filesystem -> list event -> outcome * filesystem)
    (f : filesystem) :
  (forall args f0 t, snd (exec args f0 t) = f0) ->
  grows_by_directories f (fs (snd (script exec f))).
Proof.
  intros Hquiet. rewrite script_splits.
  pose proof (main_init_grows f) as Hinit.
  destruct (main_init (start f)) as [[e | []] w]; cbn [snd] in *; [exact Hinit |].
  pose proof (main_rest_quiet exec Hquiet w) as Hrest.
  destruct (main_rest exec w) as [r w']. cbn [snd] in *. rewrite Hrest. exact Hinit.
Qed.

Lemma script_only_adds_directories_witness :
  grows_by_directories (<[["notes.txt"] := File]> ∅)
    (fs (snd (script exec_ok (<[["notes.txt"] := File]> ∅)))).
Proof.
  apply (script_only_adds_directories exec_ok).
  intros args f0 t. reflexivity.
Defined.

(** ** Failures of the directory setup *)

(** X8.  When [build] is a regular file (and so has nothing below it),
    the first [os.makedirs] raises [NotADirectoryError]: the process
    ends with status 1 having printed nothing, started no child process
    and left the file system as it was. *)
Theorem staging_directory_blocked
    (exec : list string -> filesystem -> list event -> outcome * filesystem)
    (f : filesystem) :
  Fs.lookup f "build" = Some File ->
  Fs.lookup f "build/AppIcon.iconset" = None ->
  main exec (start f)
  = (inl (OSError ENOTDIR "build/AppIcon.iconset"),
     {| globals := module_init; fs := f;
        trace := [Makedirs "build/AppIcon.iconset" true] |})
  /\ fst (script exec f) = 1
  /\ Out.stdout (trace (snd (script exec f))) = []
  /\ Obs.runs (trace (snd (script exec f))) = [].
Proof.
  rewrite lookup_build. change (Fs.lookup f "build/AppIcon.iconset")
    with (f !! ["build"; "AppIcon.iconset"]). intros Hb Ha.
  assert (Hmk : Fs.makedirs ICONSET true f = inl (OSError ENOTDIR ICONSET)).
  { unfold Fs.makedirs. change (String.length ICONSET) with 21%nat.
    rewrite (makedirs_rec_nested f _ ICONSET "build" "AppIcon.iconset") by reflexivity.
    unfold Fs.exists_. rewrite lookup_build, Hb.
    unfold Fs.mkdir_exist_ok, Fs.isdir. rewrite mkdir_ICONSET, lookup_ICONSET, Ha, Hb.
    reflexivity. }
  assert (Hmain : main exec (start f)
                  = (inl (OSError ENOTDIR ICONSET),
                     {| globals := module_init; fs := f;
                        trace := [Makedirs ICONSET true] |})).
  { unfold main, bind, load, os_makedirs, start. cbn [globals fs trace].
    change (g_ICONSET module_init) with ICONSET. rewrite Hmk. reflexivity. }
  split; [exact Hmain |]. unfold script. rewrite Hmain.
  repeat split.
Qed.

Lemma staging_directory_blocked_witness :
  fst (script exec_ok (<[["build"] := File]> ∅)) = 1
  /\ Obs.runs (trace (snd (script exec_ok (<[["build"] := File]> ∅)))) = [].
Proof.
  destruct (staging_directory_blocked exec_ok (<[["build"] := File]> ∅))
    as (_ & H1 & _ & H2); [reflexivity | reflexivity |].
  split; [exact H1 | exact H2].
Defined.

(** X9.  When [Resources] is a regular file and nothing is in the way of
    the staging directory, the second [os.makedirs] raises
    [FileExistsError] in spite of [exist_ok]: the process ends with
    status 1 without a child process, and the staging directory the
    first call made is left behind. *)
Theorem output_directory_blocked
    (exec : list string -> filesystem -> list event -> outcome * filesystem)
    (f : filesystem) :
  Fs.lookup f "Resources" = Some File ->
  Fs.lookup f "build" <> Some File ->
  Fs.lookup f "build/AppIcon.iconset" <> Some File ->
  fst (main exec (start f)) = inl (OSError EEXIST "Resources")
  /\ fst (script exec f) = 1
  /\ trace (snd (script exec f))
     = [Makedirs "build/AppIcon.iconset" true; Makedirs "Resources" true]
  /\ Fs.isdir (fs (snd (script exec f))) "build/AppIcon.iconset" = true.
Proof.
  intros Hr Hb Ha.
  destruct (makedirs_ICONSET f Hb Ha) as (f1 & H1 & Hd1 & _ & Hoth1).
  assert (Hr1 : f1 !! ["Resources"] = Some File).
  { rewrite Hoth1 by discriminate. rewrite <- lookup_Resources. exact Hr. }
  assert (H2 : Fs.makedirs (Path.dirname ICNS_OUT) true f1
               = inl (OSError EEXIST "Resources")).
  { change (Path.dirname ICNS_OUT) with "Resources".
    unfold Fs.makedirs. change (String.length "Resources") with 9%nat.
    rewrite (makedirs_rec_one f1 _ "Resources" "Resources") by reflexivity.
    unfold Fs.mkdir_exist_ok, Fs.isdir.
    rewrite mkdir_Resources, lookup_Resources, Hr1. reflexivity. }
  assert (Hmain : main exec (start f)
                  = (inl (OSError EEXIST "Resources"),
                     {| globals := module_init; fs := f1;
                        trace := [Makedirs ICONSET true; Makedirs "Resources" true] |})).
  { unfold main, bind, load, os_makedirs, start. cbn [globals fs trace].
    change (g_ICONSET module_init) with ICONSET. rewrite H1.
    cbn [globals fs trace]. change (g_ICNS_OUT module_init) with ICNS_OUT.
    rewrite H2. reflexivity. }
  unfold script. rewrite Hmain. cbn [fst snd fs trace exit_status].
  repeat split. exact Hd1.
Qed.

Lemma output_directory_blocked_witness :
  fst (script exec_ok (<[["Resources"] := File]> ∅)) = 1
  /\ Fs.isdir (fs (snd (script exec_ok (<[["Resources"] := File]> ∅)))) ICONSET = true.
Proof.
  destruct (output_directory_blocked exec_ok (<[["Resources"] := File]> ∅))
    as (_ & H1 & _ & H2); [reflexivity | discriminate | discriminate |].
  split; [exact H1 | exact H2].
Defined.

(** ** Where the staged files go *)

Lemma cut_last_sep_none (name : string) :
  Chars.mem Path.sep name = false -> Path.cut_last_sep name = None.
Proof.
  induction name as [| c name IH]; [reflexivity |].
  cbn [Chars.mem Path.cut_last_sep]. intros H.
  apply orb_false_iff in H as [Hc H]. rewrite (IH H).
  unfold Path.is_sep. rewrite Hc. reflexivity.
Qed.

Lemma cut_last_sep_app (x name : string) :
  Path.cut_last_sep name = None ->
  Path.cut_last_sep (x +:+ String Path.sep name)
  = Some (x +:+ String Path.sep EmptyString, name).
Proof.
  intros Hn. induction x as [| c x IH].
  - change (EmptyString +:+ String Path.sep name) with (String Path.sep name).
    cbn [Path.cut_last_sep]. rewrite Hn. reflexivity.
  - rewrite !append_cons. cbn [Path.cut_last_sep]. rewrite IH. reflexivity.
Qed.

Lemma startswith_sep (name : string) :
  Chars.mem Path.sep name = false -> Str.startswith "/" name = false.
Proof.
  destruct name as [| c name]; [reflexivity |].
  cbn [Chars.mem Str.startswith]. intros H. apply orb_false_iff in H as [Hc _].
  change "/"%char with Path.sep. rewrite Ascii.eqb_sym, Hc. reflexivity.
Qed.

(** X10.  For a file name without a slash, the destination [main] joins
    is the staging directory, a slash and the name, and it splits back
    into the staging directory and the name: the staged file lies
    directly in the staging directory. *)
Theorem destination_in_staging_directory (name : string) :
  Chars.mem Path.sep name = false ->
  Path.join ICONSET name = "build/AppIcon.iconset/" +:+ name
  /\ Path.split (Path.join ICONSET name) = (ICONSET, name).
Proof.
  intros Hname.
  assert (Hjoin : Path.join ICONSET name = ICONSET +:+ String Path.sep name).
  { unfold Path.join. rewrite (startswith_sep name Hname). reflexivity. }
  split; [rewrite Hjoin; reflexivity |].
  rewrite Hjoin. unfold Path.split.
  rewrite (cut_last_sep_app ICONSET name (cut_last_sep_none name Hname)).
  reflexivity.
Qed.

Lemma destination_in_staging_directory_witness :
  Path.split (Path.join ICONSET "icon_16x16.png") = (ICONSET, "icon_16x16.png").
Proof.
  apply (destination_in_staging_directory "icon_16x16.png"). reflexivity.
Defined.

(** ** The shapes of the drawing *)

(** X11.  In the drawing for a positive edge length the shapes nest: the
    background lies within the canvas, the card within the background,
    each bar within the card, and every vertex of the arrow within the
    background. *)
Theorem shapes_nest (s : Q) :
  (0 < s)%Q ->
  Layout.within (Layout.canvas s) (Drawing.rect s)
  /\ Layout.within (Drawing.rect s) (Drawing.cardRect s)
  /\ Forall (fun px => Layout.within (Drawing.cardRect s) (Drawing.pinRect s px))
       (Drawing.pins s)
  /\ Forall (Layout.point_within (Drawing.rect s)) (Drawing.arrow s).
Proof.
  intros Hs.
  unfold Layout.within, Layout.point_within, Layout.canvas, Drawing.pins,
    Drawing.arrow, Drawing.pinRect, Drawing.rect, Drawing.cardRect, Drawing.inset,
    Drawing.cardX, Drawing.cardY, Drawing.cardW, Drawing.cardH,
    Drawing.pinW, Drawing.pinH, Drawing.cx, Drawing.ay, Drawing.az.
  cbn [Drawing.x Drawing.y Drawing.width Drawing.height Drawing.px Drawing.py].
  split; [repeat split; solve_layout |].
  split; [repeat split; solve_layout |].
  split; repeat constructor;
    cbn [Drawing.x Drawing.y Drawing.width Drawing.height Drawing.px Drawing.py];
    solve_layout.
Qed.

Lemma shapes_nest_witness :
  Layout.within (Drawing.rect (inject_Z 16)) (Drawing.cardRect (inject_Z 16)).
Proof.
  destruct (shapes_nest (inject_Z 16)) as (_ & H & _); [reflexivity | exact H].
Defined.

(** X12.  In the drawing for a positive edge length the three bars are
    apart from one another, each ending before the next starts; the
    arrow lies wholly on the side of smaller [y] of the card, not
    touching it; and the arrow is its own mirror image in the vertical
    line through the middle of the canvas. *)
Theorem bars_apart_arrow_clear_and_symmetric (s : Q) :
  (0 < s)%Q ->
  (exists a b c,
     Drawing.pins s = [a; b; c]
     /\ Layout.left_of (Drawing.pinRect s a) (Drawing.pinRect s b)
     /\ Layout.left_of (Drawing.pinRect s b) (Drawing.pinRect s c))
  /\ Forall (fun p => (Drawing.py p < Drawing.y (Drawing.cardRect s))%Q)
       (Drawing.arrow s)
  /\ Forall2 Layout.same_point
       (map (Layout.mirror (s / 2)) (Drawing.arrow s))
       match Drawing.arrow s with
       | [] => []
       | p :: ps => p :: rev ps
       end.
Proof.
  intros Hs. split; [| split].
  - eexists _, _, _. split; [reflexivity |].
    unfold Layout.left_of, Drawing.pinRect, Drawing.pinW, Drawing.cardX, Drawing.cardW.
    cbn [Drawing.x Drawing.width]. split; solve_layout.
  - unfold Drawing.arrow, Drawing.cardRect, Drawing.cardY, Drawing.ay, Drawing.az.
    repeat constructor; cbn [Drawing.y Drawing.py]; solve_layout.
  - unfold Drawing.arrow, Layout.mirror, Layout.same_point, Drawing.cx, Drawing.ay,
      Drawing.az.
    cbn [map rev app Drawing.px Drawing.py].
    repeat match goal with
           | |- Forall2 _ _ _ => constructor
           | |- _ /\ _ => split
           end; cbn [Drawing.px Drawing.py]; solve_layout.
Qed.

Lemma bars_apart_arrow_clear_and_symmetric_witness :
  Forall (fun p => (Drawing.py p < Drawing.y (Drawing.cardRect (inject_Z 16)))%Q)
    (Drawing.arrow (inject_Z 16)).
Proof.
  destruct (bars_apart_arrow_clear_and_symmetric (inject_Z 16)) as (_ & H & _);
    [reflexivity | exact H].
Defined.
